(** * IGDB game dashboard: the filter, sort and paginate pipeline of [app.py]

    A shallow embedding of the functions of [src/app.py] that decide what the
    dashboard shows: [filter_data], [filter_upcoming_data], [paginate], the
    page count computed by each view, and the page number kept in
    [st.session_state] across reruns of the script; then the figures of the
    sidebar header, the grid of cards that each view draws, and a whole run
    of the script on one tab.

    Conventions of the embedding.
    - A [pl.DataFrame] is the list of its rows, in row order.
    - Text is ASCII: [lower] and [to_lowercase] map [A-Z] to [a-z] and leave
      every other character alone.
    - A finite float cell is the rational it denotes; a null cell is [None].
    - A date is its day number ([date.toordinal()]).
    - Python's [total_games / ROWS_PER_PAGE] is IEEE-754 binary64 division,
      taken from [SpecFloat] of the standard library.
    - A timestamp is a number on the time line; [strftime] and the [.1f]
      format of a float are parameters of the development. *)

From Stdlib Require Import ZArith QArith List String Ascii Bool Lia.
From Stdlib Require Import Permutation Sorting.Sorted.
From Stdlib Require Import Floats.SpecFloat.
Import ListNotations.

Open Scope string_scope.
Open Scope list_scope.
Open Scope Z_scope.

(* ------------------------------------------------------------------ *)
(** * Text: lowercasing and [str.contains] *)

Module Text.

(** [str.lower()] of Python and [str.to_lowercase()] of Polars on ASCII
    text, where both fold [A-Z] and nothing else.  On other text the two
    library functions fold more letters than [lower] does; what is stated
    about the text match is stated for [ascii_only] texts. *)
Definition lower_char (c : ascii) : ascii :=
  let n := nat_of_ascii c in
  if ((65 <=? n)%nat && (n <=? 90)%nat)%bool then ascii_of_nat (n + 32) else c.

Fixpoint lower (s : string) : string :=
  match s with
  | EmptyString => EmptyString
  | String c s' => String (lower_char c) (lower s')
  end.

Definition to_lowercase : string -> string := lower.

(** [pl.Expr.str.contains(pattern)] is called without [literal=True], so the
    library reads [pattern] as a regular expression and reports whether it
    matches somewhere in the cell.  The fragment of the syntax embedded here:
    a character that has no special meaning stands for itself, and [.]
    stands for any character but a line feed. *)
Inductive atom : Type :=
  | Lit (c : ascii)
  | AnyChar.

(** Characters that begin other regular-expression syntax (escapes,
    repetition, groups, alternation, classes, anchors). *)
Definition is_special (c : ascii) : bool :=
  existsb (Ascii.eqb c)
    ["\"; "+"; "*"; "?"; "("; ")"; "|"; "["; "]"; "{"; "}"; "^"; "$"]%char.

Definition atom_of (c : ascii) : atom :=
  if Ascii.eqb c "." then AnyChar else Lit c.

(** [None]: the pattern uses syntax outside the fragment (the library gives
    it its regular-expression meaning, or rejects it with an error).  A
    filter that meets such a pattern yields no frame here; nothing is
    stated about what the program shows for it. *)
Fixpoint regex_compile (pattern : string) : option (list atom) :=
  match pattern with
  | EmptyString => Some []
  | String c rest =>
      if is_special c then None
      else option_map (cons (atom_of c)) (regex_compile rest)
  end.

Definition atom_matches (a : atom) (c : ascii) : bool :=
  match a with
  | Lit x => Ascii.eqb x c
  | AnyChar => negb (Ascii.eqb c "010")
  end.

(** The pattern matches a prefix of [s]. *)
Fixpoint match_here (re : list atom) (s : string) : bool :=
  match re, s with
  | [], _ => true
  | a :: re', String c s' => atom_matches a c && match_here re' s'
  | _ :: _, EmptyString => false
  end.

(** The pattern matches at some position of [s] (an unanchored search). *)
Fixpoint is_match (re : list atom) (s : string) : bool :=
  match_here re s
  || match s with
     | EmptyString => false
     | String _ s' => is_match re s'
     end.

(** A search text in which every character stands for itself. *)
Fixpoint plain (s : string) : bool :=
  match s with
  | EmptyString => true
  | String c s' => negb (is_special c) && negb (Ascii.eqb c ".") && plain s'
  end.

(** A text of ASCII characters only (every code below 128). *)
Fixpoint ascii_only (s : string) : bool :=
  match s with
  | EmptyString => true
  | String c s' => (nat_of_ascii c <? 128)%nat && ascii_only s'
  end.

(** [p] occurs in [s] as a contiguous run of characters. *)
Definition substring_of (p s : string) : Prop :=
  exists pre post, s = (pre ++ p ++ post)%string.

(** The search text occurs in the title when case is ignored. *)
Definition occurs_ignoring_case (search title : string) : Prop :=
  substring_of (lower search) (to_lowercase title).

End Text.

(* ------------------------------------------------------------------ *)
(** * Rows and frames *)

(** One row of [games_dashboard], columns in the order of the query. *)
Record GameRecord : Type := {
  id : Z;
  name : string;
  cover_url : string;
  rating : option Q;
  rating_count : Z;
  igdb_url : string;
  first_release_date : Z;
  hypes : Z;
  dlt_load_timestamp : Z
}.

Definition DataFrame : Type := list GameRecord.

(** The numeric columns that the filters compare and sort by. *)
Inductive column : Type :=
  | col_rating
  | col_rating_count
  | col_first_release_date
  | col_hypes.

(** The column of a name, as [df.sort(name)] looks it up.  [None]: a text
    column, which the embedding does not sort by, or no column at all, on
    which the library raises. *)
Definition column_named (name : string) : option column :=
  if (name =? "rating")%string then Some col_rating
  else if (name =? "rating_count")%string then Some col_rating_count
  else if (name =? "first_release_date")%string then Some col_first_release_date
  else if (name =? "hypes")%string then Some col_hypes
  else None.

(** The numeric value of a cell; [None] is a null cell. *)
Definition cell (c : column) (r : GameRecord) : option Q :=
  match c with
  | col_rating => rating r
  | col_rating_count => Some (inject_Z (rating_count r))
  | col_first_release_date => Some (inject_Z (first_release_date r))
  | col_hypes => Some (inject_Z (hypes r))
  end.

(** ** Boolean expressions over cells, with nulls

    A comparison with a null cell is null, [&] is Kleene conjunction and
    [df.filter] keeps the rows whose mask is true (not false, not null). *)
Definition mask : Type := option bool.

Definition mask_and (a b : mask) : mask :=
  match a, b with
  | Some false, _ | _, Some false => Some false
  | Some true, Some true => Some true
  | _, _ => None
  end.

Infix "&&&" := mask_and (at level 40, left associativity).

Definition ge_lit (x : option Q) (v : Z) : mask :=
  option_map (fun q => Qle_bool (inject_Z v) q) x.

Definition le_lit (x : option Q) (v : Z) : mask :=
  option_map (fun q => Qle_bool q (inject_Z v)) x.

Definition gt_lit (x : option Q) (v : Z) : mask :=
  option_map (fun q => negb (Qle_bool q (inject_Z v))) x.

Definition keeps (m : mask) : bool :=
  match m with
  | Some true => true
  | _ => false
  end.

Definition df_filter (pred : GameRecord -> mask) (df : DataFrame) : DataFrame :=
  filter (fun r => keeps (pred r)) df.

(** ** [DataFrame.slice(offset, length)]

    A negative offset counts from the end; the window is clipped to the
    frame.  Every call of the program passes a length that is not negative. *)
Definition slice (offset : Z) (length : nat) (df : DataFrame) : DataFrame :=
  let n := Z.of_nat (List.length df) in
  let clamp v := Z.max 0 (Z.min v n) in
  let first := if offset <? 0 then offset + n else offset in
  let start := clamp first in
  let stop := clamp (first + Z.of_nat length) in
  firstn (Z.to_nat (stop - start)) (skipn (Z.to_nat start) df).

(** ** What [DataFrame.sort] promises

    [sort key descending df] stands for [df.sort(key, descending=...)].  The
    calls leave [maintain_order] at its default, so the library promises a
    rearrangement of the rows in which the non-null keys run in the asked
    direction, and nothing about the order of rows with equal keys. *)
Definition sorter : Type := column -> bool -> DataFrame -> DataFrame.

Definition in_order (key : column) (descending : bool) (r1 r2 : GameRecord) : Prop :=
  match cell key r1, cell key r2 with
  | Some a, Some b => if descending then (b <= a)%Q else (a <= b)%Q
  | _, _ => True
  end.

Record sort_contract (sort : sorter) : Prop := {
  sort_perm : forall key descending df, Permutation df (sort key descending df);
  sort_ordered : forall key descending df,
      ForallOrdPairs (in_order key descending) (sort key descending df)
}.

(** Two sorters that meet the contract.  [insertion_sort] puts each row
    behind the rows already placed whose key may stand before its own.
    [reversing_sort] sorts ascending and reverses the result for a
    descending sort, which turns rows with equal keys around. *)
Definition key_leb (descending : bool) (k1 k2 : option Q) : bool :=
  match k1, k2 with
  | None, _ => true
  | Some _, None => false
  | Some a, Some b => if descending then Qle_bool b a else Qle_bool a b
  end.

Fixpoint insert_row (key : column) (descending : bool) (r : GameRecord)
    (sorted : DataFrame) : DataFrame :=
  match sorted with
  | [] => [r]
  | x :: rest =>
      if key_leb descending (cell key x) (cell key r)
      then x :: insert_row key descending r rest
      else r :: sorted
  end.

Definition insertion_sort : sorter :=
  fun key descending df => fold_left (fun acc r => insert_row key descending r acc) df [].

Definition reversing_sort : sorter :=
  fun key descending df =>
    if descending
    then rev (insertion_sort key false df)
    else insertion_sort key false df.

(* ------------------------------------------------------------------ *)
(** * The script and what it can touch

    A run of the script reads the date of the day and reads and writes
    [st.session_state], which Streamlit keeps from one rerun to the next.
    [None] as a result is a raised exception (or a search pattern or a sort
    column outside the embedded fragment); the state reached so far is
    kept. *)

Record SessionState : Type := {
  page_num : option Z;
  upcoming_page_num : option Z
}.

Inductive page_key : Type :=
  | key_page_num
  | key_upcoming_page_num.

Definition lookup (k : page_key) (s : SessionState) : option Z :=
  match k with
  | key_page_num => page_num s
  | key_upcoming_page_num => upcoming_page_num s
  end.

Definition store (k : page_key) (v : Z) (s : SessionState) : SessionState :=
  match k with
  | key_page_num => {| page_num := Some v; upcoming_page_num := upcoming_page_num s |}
  | key_upcoming_page_num => {| page_num := page_num s; upcoming_page_num := Some v |}
  end.

Record World : Type := {
  today : Z;
  session_state : SessionState
}.

Definition Script (A : Type) : Type := World -> option A * World.

Definition ret {A} (a : A) : Script A := fun w => (Some a, w).

Definition raise {A} : Script A := fun w => (None, w).

Definition bind {A B} (c : Script A) (k : A -> Script B) : Script B :=
  fun w =>
    match c w with
    | (Some a, w') => k a w'
    | (None, w') => (None, w')
    end.

Notation "x <- c ;; k" := (bind c (fun x => k))
  (at level 61, c at next level, right associativity).
Notation "c ;;; k" := (bind c (fun _ => k))
  (at level 61, right associativity).

Definition of_option {A} (o : option A) : Script A :=
  match o with
  | Some a => ret a
  | None => raise
  end.

Definition when (b : bool) (c : Script unit) : Script unit :=
  if b then c else ret tt.

(** [date.today()] *)
Definition date_today : Script Z := fun w => (Some (today w), w).

(** [st.session_state.<k>] *)
Definition get_page (k : page_key) : Script Z :=
  fun w => (lookup k (session_state w), w).

(** [st.session_state.<k> = v] *)
Definition set_page (k : page_key) (v : Z) : Script unit :=
  fun w => (Some tt, {| today := today w; session_state := store k v (session_state w) |}).

(** [k in st.session_state] *)
Definition has_page (k : page_key) : Script bool :=
  fun w => (Some (match lookup k (session_state w) with Some _ => true | None => false end), w).

(* ------------------------------------------------------------------ *)
(** * Python's [/] on integers and [math.ceil] *)

Definition ROWS_PER_PAGE : Z := 20.

(** [a / b]: the quotient of the two integers rounded once to binary64
    (to nearest, ties to even); [None] is [ZeroDivisionError] or
    [OverflowError]. *)
Definition int_true_div (a b : Z) : option spec_float :=
  if b =? 0 then None
  else if a =? 0 then Some (S754_zero (b <? 0))
  else
    let '(q, e, l) := SFdiv_core_binary 53 1024 (Z.abs a) 0 (Z.abs b) 0 in
    match binary_round_aux 53 1024 (xorb (a <? 0) (b <? 0)) q e l with
    | S754_infinity _ => None
    | x => Some x
    end.

(** [math.ceil(x)]; [None] is the error raised on an infinity or a NaN. *)
Definition math_ceil (x : spec_float) : option Z :=
  match x with
  | S754_zero _ => Some 0
  | S754_finite s m e =>
      let v := if s then Z.neg m else Z.pos m in
      Some (if 0 <=? e then v * 2 ^ e else - ((- v) / 2 ^ (- e)))
  | S754_infinity _ | S754_nan => None
  end.

(** [max(1, math.ceil(total_games / ROWS_PER_PAGE))] *)
Definition total_pages (total_games : Z) : option Z :=
  match int_true_div total_games ROWS_PER_PAGE with
  | Some x => option_map (Z.max 1) (math_ceil x)
  | None => None
  end.

(** The page count as the specification words it, in exact arithmetic. *)
Definition ceil_div (a b : Z) : Z := - ((- a) / b).

Definition spec_total_pages (count pageSize : Z) : Z := Z.max 1 (ceil_div count pageSize).

(* ------------------------------------------------------------------ *)
(** * Filter, sort, paginate *)

Section Dashboard.

Variable sort : sorter.

(** The mask of [filter_data] for one row; [re] is the compiled
    [search.lower()]. *)
Definition popular_mask (re : list Text.atom) (rating_range : Z * Z) (min_count : Z)
    (r : GameRecord) : mask :=
  Some (Text.is_match re (Text.to_lowercase (name r)))
  &&& ge_lit (rating r) (fst rating_range)
  &&& le_lit (rating r) (snd rating_range)
  &&& ge_lit (cell col_rating_count r) min_count.

Definition filter_data (df : DataFrame) (search : string) (rating_range : Z * Z)
    (min_count : Z) (sort_by : string) (order : string) : Script DataFrame :=
  re <- of_option (Text.regex_compile (Text.lower search)) ;;
  let filtered := df_filter (popular_mask re rating_range min_count) df in
  key <- of_option (column_named sort_by) ;;
  if (order =? "ASC")%string
  then ret (sort key false filtered)
  else ret (sort key true filtered).

(** The mask of [filter_upcoming_data] for one row. *)
Definition upcoming_mask (date : Z) (re : list Text.atom) (min_hypes max_hypes : Z)
    (r : GameRecord) : mask :=
  gt_lit (cell col_first_release_date r) date
  &&& Some (Text.is_match re (Text.to_lowercase (name r)))
  &&& ge_lit (cell col_hypes r) min_hypes
  &&& le_lit (cell col_hypes r) max_hypes.

Definition filter_upcoming_data (df : DataFrame) (search : string)
    (min_hypes max_hypes : Z) (sort_by order : string) : Script DataFrame :=
  date <- date_today ;;
  re <- of_option (Text.regex_compile (Text.lower search)) ;;
  let filtered := df_filter (upcoming_mask date re min_hypes max_hypes) df in
  let descending := (order =? "Descending")%string in
  if (sort_by =? "Release Date")%string
  then ret (sort col_first_release_date descending filtered)
  else ret (sort col_hypes descending filtered).

Definition paginate (df : DataFrame) (page : Z) (rows_per_page : nat) : DataFrame :=
  let start := (page - 1) * Z.of_nat rows_per_page in
  slice start rows_per_page df.

(* ------------------------------------------------------------------ *)
(** * The two views *)

Inductive button : Type :=
  | prev_popular
  | next_popular
  | prev_upcoming
  | next_upcoming.

Definition button_eqb (a b : button) : bool :=
  match a, b with
  | prev_popular, prev_popular
  | next_popular, next_popular
  | prev_upcoming, prev_upcoming
  | next_upcoming, next_upcoming => true
  | _, _ => false
  end.

(** [st.button(..., key=b)] is true in the rerun that the click on [b]
    caused; [pressed] is the button clicked, if the rerun has one. *)
Definition st_button (pressed : option button) (b : button) : bool :=
  match pressed with
  | Some p => button_eqb p b
  | None => false
  end.

(** The values of the sidebar widgets of each view. *)
Record PopularControls : Type := {
  search_popular : string;
  rating_range_popular : Z * Z;
  min_count_popular : Z;
  sort_by_popular : string;
  order_popular : string
}.

Record UpcomingControls : Type := {
  search_upcoming : string;
  hypes_range : Z * Z;
  sort_by_upcoming : string;
  order_upcoming : string
}.

(** What a view draws: "Page [shown_page] of [shown_total]" and the cards. *)
Record Page : Type := {
  shown_page : Z;
  shown_total : Z;
  cards : DataFrame
}.

(** The page number of a view and its two buttons; the same lines serve
    both views, each under its own keys. *)
Definition pagination_controls (k : page_key) (prev next : bool) (pages : Z)
    : Script Z :=
  present <- has_page k ;;
  when (negb present) (set_page k 1) ;;;
  p <- get_page k ;;
  when (prev && (p >? 1)) (set_page k (p - 1)) ;;;
  p <- get_page k ;;
  when (next && (p <? pages)) (set_page k (p + 1)) ;;;
  get_page k.

Definition popular_view (full_df : DataFrame) (c : PopularControls)
    (pressed : option button) : Script Page :=
  let order := if (order_popular c =? "Descending")%string then "DESC" else "ASC" in
  filtered_df <- filter_data full_df (search_popular c) (rating_range_popular c)
                   (min_count_popular c) (sort_by_popular c) order ;;
  let total_games := Z.of_nat (List.length filtered_df) in
  pages <- of_option (total_pages total_games) ;;
  p <- pagination_controls key_page_num
         (st_button pressed prev_popular) (st_button pressed next_popular) pages ;;
  ret {| shown_page := p; shown_total := pages;
         cards := paginate filtered_df p (Z.to_nat ROWS_PER_PAGE) |}.

Definition upcoming_view (full_df : DataFrame) (c : UpcomingControls)
    (pressed : option button) : Script Page :=
  filtered_df <- filter_upcoming_data full_df (search_upcoming c)
                   (fst (hypes_range c)) (snd (hypes_range c))
                   (sort_by_upcoming c) (order_upcoming c) ;;
  let total_games := Z.of_nat (List.length filtered_df) in
  pages <- of_option (total_pages total_games) ;;
  p <- pagination_controls key_upcoming_page_num
         (st_button pressed prev_upcoming) (st_button pressed next_upcoming) pages ;;
  ret {| shown_page := p; shown_total := pages;
         cards := paginate filtered_df p (Z.to_nat ROWS_PER_PAGE) |}.

End Dashboard.

(* ------------------------------------------------------------------ *)
(** * Notions that the statements use *)

(** The pattern that a search text without special characters compiles to. *)
Definition literal (s : string) : list Text.atom :=
  map Text.Lit (list_ascii_of_string s).

(** The conditions of the specification on one record. *)
Definition rating_within (r : GameRecord) (lo hi : Z) : Prop :=
  exists q, rating r = Some q /\ (inject_Z lo <= q)%Q /\ (q <= inject_Z hi)%Q.

Definition hype_within (r : GameRecord) (lo hi : Z) : Prop :=
  lo <= hypes r <= hi.

Definition released_after (r : GameRecord) (date : Z) : Prop :=
  date < first_release_date r.

(** [x] comes before [y] in [l]. *)
Definition before (l : DataFrame) (x y : GameRecord) : Prop :=
  exists l1 l2 l3, l = l1 ++ x :: l2 ++ y :: l3.

(** Records with the same key keep the order they had in the input. *)
Definition keeps_tie_order (key : column) (input output : DataFrame) : Prop :=
  forall x y, In x output -> In y output -> cell key x = cell key y ->
    before input x y -> before output x y.

(** The order [insert_row] compares keys by. *)
Definition key_le (descending : bool) (k1 k2 : option Q) : Prop :=
  key_leb descending k1 k2 = true.

(** The page number a run of the pagination lines leaves, from the stored
    one ([None]: no page stored yet) and the button of the rerun. *)
Definition page_after (stored : option Z) (prev next : bool) (pages : Z) : Z :=
  let p0 := match stored with Some p => p | None => 1 end in
  let p1 := if prev && (p0 >? 1) then p0 - 1 else p0 in
  if next && (p1 <? pages) then p1 + 1 else p1.

(** The world as a rerun finds it: the session state of the last run, on a
    day that may be another one. *)
Definition on_day (date : Z) (w : World) : World :=
  {| today := date; session_state := session_state w |}.

Definition fresh_session : SessionState :=
  {| page_num := None; upcoming_page_num := None |}.

(** The worlds a user can bring about: from a fresh session, any number of
    reruns of either view, on any snapshot, with any widget values. *)
Inductive reachable (sort : sorter) : World -> Prop :=
  | reach_fresh date :
      reachable sort {| today := date; session_state := fresh_session |}
  | reach_popular w date full_df c pressed :
      reachable sort w ->
      reachable sort (snd (popular_view sort full_df c pressed (on_day date w)))
  | reach_upcoming w date full_df c pressed :
      reachable sort w ->
      reachable sort (snd (upcoming_view sort full_df c pressed (on_day date w))).

(** Every stored page number is at least 1. *)
Definition pages_from_1 (w : World) : Prop :=
  forall k p, lookup k (session_state w) = Some p -> 1 <= p.

(** The mantissa that rounding keeps of a quotient [q] of 53 or 54 bits
    with location [l], in units of the last bit of [q]. *)
Definition rounded (q : Z) (l : location) : Z :=
  if q <? 2 ^ 53 then round_nearest_even q l
  else 2 * round_nearest_even (q / 2)
             (loc_of_shr_record
                {| shr_m := q / 2; shr_r := Z.odd q;
                   shr_s := match l with loc_Exact => false | _ => true end |}).

(* ------------------------------------------------------------------ *)
(** * Sample data *)

Definition game (i : Z) (title : string) (score : option Q) (votes release hype : Z)
    : GameRecord :=
  {| id := i; name := title; cover_url := ""; rating := score;
     rating_count := votes; igdb_url := ""; first_release_date := release;
     hypes := hype; dlt_load_timestamp := 0 |}.

(** 45 rated games, three pages of the popular view. *)
Definition catalogue : DataFrame :=
  map (fun i => game (Z.of_nat i) "Halo" (Some (80 # 1)) 10 100 5) (seq 0 45).

(** The sidebar of the popular view as it first shows, and after the user
    typed a title into the search box. *)
Definition initial_popular : PopularControls :=
  {| search_popular := ""; rating_range_popular := (0, 100);
     min_count_popular := 0; sort_by_popular := "rating_count";
     order_popular := "Descending" |}.

Definition typed_popular : PopularControls :=
  {| search_popular := "zelda"; rating_range_popular := (0, 100);
     min_count_popular := 0; sort_by_popular := "rating_count";
     order_popular := "Descending" |}.

(** A session on page 3 of the popular view. *)
Definition on_page_3 : World :=
  {| today := 0;
     session_state := {| page_num := Some 3; upcoming_page_num := None |} |}.

Definition halo : GameRecord := game 1 "Halo" (Some (87 # 1)) 1200 100 0.

Definition hades : GameRecord := game 2 "Hades II" None 0 20100 35.

(** Two games with the same rating. *)
Definition doom : GameRecord := game 3 "Doom" (Some (90 # 1)) 800 100 0.

Definition quake : GameRecord := game 4 "Quake" (Some (90 # 1)) 500 100 0.

(** A session that starts on day 0, and one on a day when "Hades II" is
    still to come. *)
Definition first_visit : World := {| today := 0; session_state := fresh_session |}.

Definition launch_day : World := {| today := 20000; session_state := fresh_session |}.

(** The sidebar of the upcoming view as it first shows on [launch_day] for
    a snapshot with [hades]. *)
Definition initial_upcoming : UpcomingControls :=
  {| search_upcoming := ""; hypes_range := (0, 35);
     sort_by_upcoming := "Hypes"; order_upcoming := "Descending" |}.


(* ------------------------------------------------------------------ *)
(** * The header statistics *)

(** [df.get_column(name)]: the cells of one column, in row order. *)
Definition get_column {A} (field : GameRecord -> A) (df : DataFrame) : list A :=
  map field df.

(** [Series.max()]: [None] on a column without rows. *)
Definition column_max (xs : list Z) : option Z :=
  match xs with
  | [] => None
  | x :: rest => Some (fold_left Z.max rest x)
  end.

(** A sum of 64-bit integers wraps around. *)
Definition wrap_int64 (z : Z) : Z := (z + 2 ^ 63) mod 2 ^ 64 - 2 ^ 63.

(** [Series.sum()] on an [Int64] column: 0 on a column without rows. *)
Definition column_sum (xs : list Z) : Z :=
  fold_left (fun acc x => wrap_int64 (acc + x)) xs 0.

(** The mask [pl.col("first_release_date") > date.today()]. *)
Definition upcoming_only (date : Z) (r : GameRecord) : mask :=
  gt_lit (cell col_first_release_date r) date.

Definition get_max_hypes (df : DataFrame) : Script (option Z) :=
  date <- date_today ;;
  ret (column_max (get_column hypes (df_filter (upcoming_only date) df))).

(** [count()] counts the cells that are not null; an [id] never is. *)
Definition get_games_number (df : DataFrame) : Z :=
  Z.of_nat (List.length (get_column id df)).

Definition get_ratings_count (df : DataFrame) : Z :=
  column_sum (get_column rating_count df).

(* ------------------------------------------------------------------ *)
(** * Rows as tuples, cards, and the grid

    [page_df.row(idx)] is the tuple of the cells of a row, in the order of
    the columns of the query; a card reads its fields by position.  What
    Python prints for a number or a date is the library's business: the
    three formatting functions are parameters. *)

Inductive value : Type :=
  | VNull
  | VInt (z : Z)
  | VFloat (q : Q)
  | VStr (s : string)
  | VDate (day : Z)
  | VDatetime (t : Z).

Definition row_of (r : GameRecord) : list value :=
  [ VInt (id r); VStr (name r); VStr (cover_url r);
    match rating r with Some q => VFloat q | None => VNull end;
    VInt (rating_count r); VStr (igdb_url r); VDate (first_release_date r);
    VInt (hypes r); VDatetime (dlt_load_timestamp r) ].

(** [df.row(idx)]; [None] is the error raised on an index out of bounds. *)
Definition df_row (df : DataFrame) (idx : nat) : option (list value) :=
  option_map row_of (nth_error df idx).

(** [game[i]]; [None] is [IndexError]. *)
Definition item (game : list value) (i : nat) : option value := nth_error game i.

Definition and_then {A B} (o : option A) (k : A -> option B) : option B :=
  match o with
  | Some a => k a
  | None => None
  end.

Notation "'try' x := o 'in' k" := (and_then o (fun x => k))
  (at level 10, x name, o at level 100, k at level 200).

(** All results, or [None] at the first failure. *)
Fixpoint collect {A} (l : list (option A)) : option (list A) :=
  match l with
  | [] => Some []
  | o :: rest => try a := o in try others := collect rest in Some (a :: others)
  end.

Definition col_count : nat := 4.

(** [n // col_count + int(n % col_count != 0)] *)
Definition grid_rows (n : nat) : nat :=
  (n / col_count + if n mod col_count =? 0 then 0 else 1)%nat.

Section Rendering.

Variable format_float : Q -> string -> string.
Variable date_strftime : Z -> string -> string.
Variable datetime_strftime : Z -> string -> string.

Definition format_last_update (df : DataFrame) : option string :=
  match column_max (get_column dlt_load_timestamp df) with
  | Some last_update => Some (datetime_strftime last_update "%Y-%m-%d %H:%M UTC")
  | None => None
  end.

(** [f"{v:spec}"] with a format specification that is not empty; [None] is
    the [TypeError] of [None] and the [ValueError] of a string. *)
Definition format_value (v : value) (spec : string) : option string :=
  match v with
  | VFloat q => Some (format_float q spec)
  | VInt z => Some (format_float (inject_Z z) spec)
  | VDate day => Some (date_strftime day spec)
  | VDatetime t => Some (datetime_strftime t spec)
  | VNull | VStr _ => None
  end.

(** [v.strftime(fmt)]; [None] is the [AttributeError] of a value that is
    no date. *)
Definition strftime (v : value) (fmt : string) : option string :=
  match v with
  | VDate day => Some (date_strftime day fmt)
  | VDatetime t => Some (datetime_strftime t fmt)
  | _ => None
  end.

(** What a card of the popular view interpolates into its markup: the
    link, the image, the title, the rating to one decimal, the count. *)
Record PopularCard : Type := {
  popular_href : value;
  popular_img : value;
  popular_title : value;
  popular_rating : string;
  popular_count : value
}.

Definition popular_card (game : list value) : option PopularCard :=
  try href := item game 5 in
  try img := item game 2 in
  try title := item game 1 in
  try score := item game 3 in
  try shown := format_value score ".1f" in
  try count := item game 4 in
  Some {| popular_href := href; popular_img := img; popular_title := title;
          popular_rating := shown; popular_count := count |}.

(** The same for the upcoming view: the release date and the hype count. *)
Record UpcomingCard : Type := {
  upcoming_href : value;
  upcoming_img : value;
  upcoming_title : value;
  upcoming_release : string;
  upcoming_hype : value
}.

Definition upcoming_card (game : list value) : option UpcomingCard :=
  try date := item game 6 in
  try release_date := strftime date "%b %d, %Y" in
  try href := item game 5 in
  try img := item game 2 in
  try title := item game 1 in
  try hype := item game 7 in
  Some {| upcoming_href := href; upcoming_img := img; upcoming_title := title;
          upcoming_release := release_date; upcoming_hype := hype |}.

(** One pass of the inner loop: column [j] of grid row [i] gets the card of
    row [i * col_count + j] of the page, or stays empty. *)
Definition render_cell {C} (card : list value -> option C) (page_df : DataFrame)
    (i j : nat) : option (option C) :=
  let idx := (i * col_count + j)%nat in
  if (idx <? List.length page_df)%nat then
    try game := df_row page_df idx in
    try shown := card game in
    Some (Some shown)
  else Some None.

Definition render_row {C} (card : list value -> option C) (page_df : DataFrame)
    (i : nat) : option (list (option C)) :=
  collect (map (render_cell card page_df i) (seq 0 col_count)).

(** The grid of a page: a list of rows of [col_count] columns each. *)
Definition render_grid {C} (card : list value -> option C) (page_df : DataFrame)
    : option (list (list (option C))) :=
  collect (map (render_row card page_df) (seq 0 (grid_rows (List.length page_df)))).

Section Screens.

Variable sort : sorter.

(** A view with its grid drawn. *)
Definition popular_screen (full_df : DataFrame) (c : PopularControls)
    (pressed : option button) : Script (Page * list (list (option PopularCard))) :=
  pg <- popular_view sort full_df c pressed ;;
  grid <- of_option (render_grid popular_card (cards pg)) ;;
  ret (pg, grid).

Definition upcoming_screen (full_df : DataFrame) (c : UpcomingControls)
    (pressed : option button) : Script (Page * list (list (option UpcomingCard))) :=
  pg <- upcoming_view sort full_df c pressed ;;
  grid <- of_option (render_grid upcoming_card (cards pg)) ;;
  ret (pg, grid).

(** The radio of the sidebar. *)
Inductive tab : Type :=
  | upcoming_releases
  | popular_games.

(** The three lines of the sidebar header. *)
Record Header : Type := {
  last_update : string;
  total_games_count : Z;
  ratings_count : Z
}.

Inductive Body : Type :=
  | PopularBody (pg : Page) (grid : list (list (option PopularCard)))
  | UpcomingBody (pg : Page) (grid : list (list (option UpcomingCard))).

(** One run of the script on the cached snapshot.  The widgets return the
    values held in the two records of controls; for the upcoming tab the
    sidebar first sizes the hype slider with [int(max_hypes)], which raises
    on [None]. *)
Definition app (full_df : DataFrame) (tab_choice : tab) (popular : PopularControls)
    (upcoming : UpcomingControls) (pressed : option button)
    : Script (Header * Body) :=
  shown <- of_option (format_last_update full_df) ;;
  let header := {| last_update := shown;
                   total_games_count := get_games_number full_df;
                   ratings_count := get_ratings_count full_df |} in
  match tab_choice with
  | popular_games =>
      screen <- popular_screen full_df popular pressed ;;
      ret (header, PopularBody (fst screen) (snd screen))
  | upcoming_releases =>
      max_hypes <- get_max_hypes full_df ;;
      _ <- of_option max_hypes ;;
      screen <- upcoming_screen full_df upcoming pressed ;;
      ret (header, UpcomingBody (fst screen) (snd screen))
  end.

End Screens.

End Rendering.

(** The card that each view draws for a game, field by field. *)
Definition popular_card_of (format_float : Q -> string -> string) (q : Q)
    (r : GameRecord) : PopularCard :=
  {| popular_href := VStr (igdb_url r); popular_img := VStr (cover_url r);
     popular_title := VStr (name r); popular_rating := format_float q ".1f";
     popular_count := VInt (rating_count r) |}.

Definition upcoming_card_of (date_strftime : Z -> string -> string)
    (r : GameRecord) : UpcomingCard :=
  {| upcoming_href := VStr (igdb_url r); upcoming_img := VStr (cover_url r);
     upcoming_title := VStr (name r);
     upcoming_release := date_strftime (first_release_date r) "%b %d, %Y";
     upcoming_hype := VInt (hypes r) |}.

(** The cards of a grid, read row by row and left to right. *)
Definition slot_cards {C} (slot : option C) : list C :=
  match slot with Some c => [c] | None => [] end.

Definition grid_cards {C} (grid : list (list (option C))) : list C :=
  flat_map (flat_map slot_cards) grid.

(** The sum of a column in the integers, without the wrap-around. *)
Definition exact_sum (xs : list Z) : Z := fold_right Z.add 0 xs.

(** A grid row of [k] cards followed by empty columns. *)
Definition filled_to {C} (k : nat) (row : list (option C)) : Prop :=
  List.length row = col_count /\
  forall j, (j < col_count)%nat ->
    (j < k)%nat <-> exists c, nth_error row j = Some (Some c).

(** Stand-ins for the formatting functions, for running the script. *)
Definition show_nothing {A} (x : A) (spec : string) : string := spec.

(* ------------------------------------------------------------------ *)
(** * Facts about the text search *)

Lemma lower_char_plain (c : ascii) :
  Text.is_special c = false -> Ascii.eqb c "." = false ->
  Text.is_special (Text.lower_char c) = false /\
  Ascii.eqb (Text.lower_char c) "." = false.
Proof.
  destruct c as [[] [] [] [] [] [] [] []]; vm_compute; intros; split; congruence.
Qed.

Lemma lower_plain (s : string) :
  Text.plain s = true -> Text.plain (Text.lower s) = true.
Proof.
  induction s as [|c s IH]; simpl; intro H; [reflexivity|].
  apply andb_prop in H as [H Hs]. apply andb_prop in H as [Hc Hd].
  apply negb_true_iff in Hc, Hd.
  destruct (lower_char_plain c Hc Hd) as [Hc' Hd'].
  rewrite Hc', Hd', IH by assumption. reflexivity.
Qed.

Lemma regex_compile_plain (s : string) :
  Text.plain s = true -> Text.regex_compile s = Some (literal s).
Proof.
  unfold literal.
  induction s as [|c s IH]; simpl; intro H; [reflexivity|].
  apply andb_prop in H as [H Hs]. apply andb_prop in H as [Hc Hd].
  apply negb_true_iff in Hc, Hd.
  rewrite Hc, IH by assumption. unfold Text.atom_of. rewrite Hd. reflexivity.
Qed.

Lemma match_here_literal (p s : string) :
  Text.match_here (literal p) s = true <-> exists post, s = (p ++ post)%string.
Proof.
  unfold literal. revert s.
  induction p as [|c p IH]; intro s; simpl.
  - split; [intros _; exists s; reflexivity | reflexivity].
  - destruct s as [|d s].
    + split; [discriminate | intros [post H]; discriminate].
    + rewrite andb_true_iff, IH. simpl. rewrite Ascii.eqb_eq. split.
      * intros [-> [post ->]]. exists post. reflexivity.
      * intros [post H]. injection H as -> ->. split; [reflexivity | eauto].
Qed.

Lemma is_match_literal (p s : string) :
  Text.is_match (literal p) s = true <-> Text.substring_of p s.
Proof.
  unfold Text.substring_of.
  induction s as [|d s IH].
  - simpl. rewrite orb_false_r, match_here_literal. split.
    + intros [post H]. exists EmptyString, post. exact H.
    + intros [[|c pre] [post H]]; [exists post; exact H | discriminate].
  - simpl. rewrite orb_true_iff, match_here_literal, IH. split.
    + intros [[post H] | [pre [post H]]].
      * exists EmptyString, post. exact H.
      * exists (String d pre), post. simpl. rewrite H. reflexivity.
    + intros [[|c pre] [post H]].
      * left. exists post. exact H.
      * right. simpl in H. injection H as _ H. exists pre, post. exact H.
Qed.

(** On a search text without special characters the library's search is the
    plain, case-insensitive substring test. *)
Lemma plain_search_is_substring (search title : string) :
  Text.plain search = true ->
  exists re, Text.regex_compile (Text.lower search) = Some re /\
    (Text.is_match re (Text.to_lowercase title) = true <->
     Text.occurs_ignoring_case search title).
Proof.
  intro H. exists (literal (Text.lower search)). split.
  - apply regex_compile_plain, lower_plain, H.
  - apply is_match_literal.
Qed.

(* ------------------------------------------------------------------ *)
(** * The two sorters meet the contract *)

Section KeyOrder.

Variable descending : bool.

Lemma key_le_trans k1 k2 k3 :
  key_le descending k1 k2 -> key_le descending k2 k3 -> key_le descending k1 k3.
Proof.
  unfold key_le, key_leb.
  destruct k1 as [a|], k2 as [b|], k3 as [c|]; try congruence.
  destruct descending; rewrite !Qle_bool_iff; intros; eapply Qle_trans; eassumption.
Qed.

Lemma key_le_total k1 k2 :
  key_leb descending k1 k2 = false -> key_le descending k2 k1.
Proof.
  unfold key_le, key_leb.
  destruct k1 as [a|], k2 as [b|]; try congruence.
  destruct descending; intro H; apply Qle_bool_iff, Qlt_le_weak, Qnot_le_lt;
    rewrite <- Qle_bool_iff; congruence.
Qed.

Lemma key_le_in_order key r1 r2 :
  key_le descending (cell key r1) (cell key r2) -> in_order key descending r1 r2.
Proof.
  unfold key_le, key_leb, in_order.
  destruct (cell key r1), (cell key r2); try exact (fun _ => I).
  destruct descending; apply Qle_bool_iff.
Qed.

End KeyOrder.

Lemma insert_row_perm key descending r l :
  Permutation (r :: l) (insert_row key descending r l).
Proof.
  induction l as [|x l IH]; simpl; [reflexivity|].
  destruct (key_leb descending (cell key x) (cell key r)); [|reflexivity].
  rewrite perm_swap. constructor. exact IH.
Qed.

Lemma insert_row_sorted key descending r l :
  StronglySorted (fun a b => key_le descending (cell key a) (cell key b)) l ->
  StronglySorted (fun a b => key_le descending (cell key a) (cell key b))
    (insert_row key descending r l).
Proof.
  induction 1 as [|x l Hs IH Hx]; simpl.
  - repeat constructor.
  - destruct (key_leb descending (cell key x) (cell key r)) eqn:E.
    + constructor; [exact IH|].
      rewrite <- insert_row_perm. constructor; assumption.
    + apply key_le_total in E.
      constructor; [constructor; assumption|].
      constructor; [exact E|].
      eapply Forall_impl; [|exact Hx].
      intros a Ha. eapply key_le_trans; eassumption.
Qed.

Lemma fold_insert_perm key descending df acc :
  Permutation (df ++ acc)
    (fold_left (fun a r => insert_row key descending r a) df acc).
Proof.
  revert acc. induction df as [|r df IH]; intro acc; simpl; [reflexivity|].
  rewrite <- IH. rewrite <- insert_row_perm. apply Permutation_middle.
Qed.

Lemma fold_insert_sorted key descending df acc :
  StronglySorted (fun a b => key_le descending (cell key a) (cell key b)) acc ->
  StronglySorted (fun a b => key_le descending (cell key a) (cell key b))
    (fold_left (fun a r => insert_row key descending r a) df acc).
Proof.
  revert acc. induction df as [|r df IH]; intros acc H; simpl; [exact H|].
  apply IH, insert_row_sorted, H.
Qed.

Lemma strongly_sorted_pairs {A} (R S : A -> A -> Prop) l :
  (forall a b, R a b -> S a b) -> StronglySorted R l -> ForallOrdPairs S l.
Proof.
  intros HRS. induction 1 as [|x l _ IH Hx]; constructor; [|exact IH].
  eapply Forall_impl; [|exact Hx]. intros a. apply HRS.
Qed.

Lemma pairs_app {A} (R : A -> A -> Prop) l1 l2 :
  ForallOrdPairs R l1 -> ForallOrdPairs R l2 ->
  (forall x y, In x l1 -> In y l2 -> R x y) ->
  ForallOrdPairs R (l1 ++ l2).
Proof.
  induction 1 as [|a l1 Ha H1 IH]; intros H2 Hc; simpl; [exact H2|].
  constructor.
  - apply Forall_app. split; [exact Ha|].
    apply Forall_forall. intros y Hy. apply Hc; [left; reflexivity | exact Hy].
  - apply IH; [exact H2|]. intros x y Hx Hy. apply Hc; [right; exact Hx | exact Hy].
Qed.

Lemma pairs_rev {A} (R : A -> A -> Prop) l :
  ForallOrdPairs R l -> ForallOrdPairs (fun a b => R b a) (rev l).
Proof.
  induction 1 as [|a l Ha _ IH]; simpl; [constructor|].
  apply pairs_app; [exact IH | repeat constructor |].
  intros x y Hx [<-|[]]. apply in_rev in Hx.
  rewrite Forall_forall in Ha. apply Ha, Hx.
Qed.

Lemma in_order_flip key r1 r2 :
  in_order key false r2 r1 -> in_order key true r1 r2.
Proof.
  unfold in_order. destruct (cell key r1), (cell key r2); auto.
Qed.

Lemma insertion_sort_contract : sort_contract insertion_sort.
Proof.
  split; intros key descending df; unfold insertion_sort.
  - rewrite <- fold_insert_perm, app_nil_r. reflexivity.
  - eapply strongly_sorted_pairs; [|apply fold_insert_sorted; constructor].
    intros a b. apply key_le_in_order.
Qed.

Lemma reversing_sort_contract : sort_contract reversing_sort.
Proof.
  split; intros key descending df; unfold reversing_sort; destruct descending.
  - rewrite <- Permutation_rev. apply insertion_sort_contract.
  - apply insertion_sort_contract.
  - pose proof (sort_ordered _ insertion_sort_contract key false df) as H.
    apply pairs_rev in H. revert H. generalize (rev (insertion_sort key false df)).
    induction 1 as [|a l Ha _ IH]; constructor; [|exact IH].
    eapply Forall_impl; [|exact Ha]. intros b. apply in_order_flip.
  - apply insertion_sort_contract.
Qed.

(* ------------------------------------------------------------------ *)
(** * What the two filters keep *)

Lemma keeps_and (a b : mask) : keeps (a &&& b) = keeps a && keeps b.
Proof. destruct a as [[]|], b as [[]|]; reflexivity. Qed.

Lemma Qle_bool_inject (x y : Z) : Qle_bool (inject_Z x) (inject_Z y) = (x <=? y).
Proof.
  apply eq_true_iff_eq. rewrite Qle_bool_iff, Z.leb_le, Zle_Qle. reflexivity.
Qed.

Lemma keeps_ge_int (x v : Z) : keeps (ge_lit (Some (inject_Z x)) v) = true <-> v <= x.
Proof.
  simpl. rewrite Qle_bool_inject, <- Z.leb_le. destruct (v <=? x); simpl; intuition congruence.
Qed.

Lemma keeps_le_int (x v : Z) : keeps (le_lit (Some (inject_Z x)) v) = true <-> x <= v.
Proof.
  simpl. rewrite Qle_bool_inject, <- Z.leb_le. destruct (x <=? v); simpl; intuition congruence.
Qed.

Lemma keeps_gt_int (x v : Z) : keeps (gt_lit (Some (inject_Z x)) v) = true <-> v < x.
Proof.
  simpl. rewrite Qle_bool_inject, <- Z.leb_gt. destruct (x <=? v); simpl; intuition congruence.
Qed.

Lemma keeps_rating_range (r : GameRecord) (lo hi : Z) :
  keeps (ge_lit (rating r) lo) && keeps (le_lit (rating r) hi) = true <->
  rating_within r lo hi.
Proof.
  unfold rating_within. destruct (rating r) as [q|]; simpl.
  - split.
    + intro H. apply andb_prop in H as [H1 H2]. exists q.
      rewrite <- !Qle_bool_iff.
      destruct (Qle_bool (inject_Z lo) q), (Qle_bool q (inject_Z hi));
        try discriminate; auto.
    + intros (q' & [= <-] & H1 & H2).
      apply Qle_bool_iff in H1, H2. rewrite H1, H2. reflexivity.
  - split; [discriminate | intros (q & H & _); discriminate].
Qed.

Lemma popular_mask_keeps re rating_range min_count r :
  keeps (popular_mask re rating_range min_count r) = true <->
  Text.is_match re (Text.to_lowercase (name r)) = true /\
  rating_within r (fst rating_range) (snd rating_range) /\
  min_count <= rating_count r.
Proof.
  unfold popular_mask. rewrite !keeps_and.
  rewrite <- (andb_assoc (keeps (Some _))).
  rewrite !andb_true_iff, <- (andb_true_iff (keeps (ge_lit (rating r) _))).
  rewrite keeps_rating_range.
  unfold cell. rewrite keeps_ge_int.
  destruct (Text.is_match re (Text.to_lowercase (name r))); simpl;
    intuition congruence.
Qed.

Lemma upcoming_mask_keeps date re min_hypes max_hypes r :
  keeps (upcoming_mask date re min_hypes max_hypes r) = true <->
  released_after r date /\
  Text.is_match re (Text.to_lowercase (name r)) = true /\
  hype_within r min_hypes max_hypes.
Proof.
  unfold upcoming_mask, cell, released_after, hype_within.
  rewrite !keeps_and, !andb_true_iff, keeps_gt_int, keeps_ge_int, keeps_le_int.
  destruct (Text.is_match re (Text.to_lowercase (name r))); simpl;
    intuition congruence.
Qed.

Lemma in_df_filter pred df r :
  In r (df_filter pred df) <-> In r df /\ keeps (pred r) = true.
Proof. apply filter_In. Qed.

Section FilterFacts.

Variable sort : sorter.
Hypothesis sort_ok : sort_contract sort.

Lemma in_sort key descending df r : In r (sort key descending df) <-> In r df.
Proof.
  split; apply Permutation_in;
    [symmetry|]; apply (sort_perm _ sort_ok).
Qed.

(** [filter_data] returns as soon as the search text compiles; it leaves
    the world as it found it. *)
Lemma filter_data_runs df search rating_range min_count sort_by order re key w :
  Text.regex_compile (Text.lower search) = Some re ->
  column_named sort_by = Some key ->
  filter_data sort df search rating_range min_count sort_by order w =
  (Some (sort key (negb (order =? "ASC")%string)
           (df_filter (popular_mask re rating_range min_count) df)), w).
Proof.
  intros H Hk. unfold filter_data, bind, of_option. rewrite H, Hk. unfold ret.
  destruct (order =? "ASC")%string; reflexivity.
Qed.

Lemma filter_data_inv df search rating_range min_count sort_by order w out :
  fst (filter_data sort df search rating_range min_count sort_by order w) = Some out ->
  exists re key,
    Text.regex_compile (Text.lower search) = Some re /\
    column_named sort_by = Some key /\
    out = sort key (negb (order =? "ASC")%string)
            (df_filter (popular_mask re rating_range min_count) df).
Proof.
  destruct (Text.regex_compile (Text.lower search)) as [re|] eqn:E;
    [destruct (column_named sort_by) as [key|] eqn:Ek|].
  - rewrite (filter_data_runs _ _ _ _ _ _ re key) by assumption. simpl.
    intros [= <-]. exists re, key. auto.
  - unfold filter_data, bind, of_option. rewrite E, Ek. discriminate.
  - unfold filter_data, bind, of_option. rewrite E. discriminate.
Qed.

Lemma filter_upcoming_data_runs df search min_hypes max_hypes sort_by order re w :
  Text.regex_compile (Text.lower search) = Some re ->
  filter_upcoming_data sort df search min_hypes max_hypes sort_by order w =
  (Some (sort (if (sort_by =? "Release Date")%string
               then col_first_release_date else col_hypes)
           (order =? "Descending")%string
           (df_filter (upcoming_mask (today w) re min_hypes max_hypes) df)), w).
Proof.
  intro H. unfold filter_upcoming_data, bind, of_option, date_today.
  rewrite H. unfold ret.
  destruct (sort_by =? "Release Date")%string; reflexivity.
Qed.

Lemma filter_upcoming_data_inv df search min_hypes max_hypes sort_by order w out :
  fst (filter_upcoming_data sort df search min_hypes max_hypes sort_by order w)
    = Some out ->
  exists re, Text.regex_compile (Text.lower search) = Some re /\
    out = sort (if (sort_by =? "Release Date")%string
                then col_first_release_date else col_hypes)
            (order =? "Descending")%string
            (df_filter (upcoming_mask (today w) re min_hypes max_hypes) df).
Proof.
  destruct (Text.regex_compile (Text.lower search)) as [re|] eqn:E.
  - rewrite (filter_upcoming_data_runs _ _ _ _ _ _ re) by exact E. simpl.
    intros [= <-]. exists re. auto.
  - unfold filter_upcoming_data, bind, of_option, date_today. rewrite E. discriminate.
Qed.

(** X1. On an ASCII search text without special characters, and sorted by
    one of the numeric columns, [filter_data] returns, and of the records
    with an ASCII title it keeps exactly those of the snapshot that meet the
    three conditions: the text occurs in the title when case is ignored, the
    rating is in the range, and the rating count is at least the minimum. *)
Theorem filter_data_plain_search df search rating_range min_count sort_by order w :
  Text.plain search = true ->
  Text.ascii_only search = true ->
  column_named sort_by <> None ->
  exists out,
    filter_data sort df search rating_range min_count sort_by order w = (Some out, w) /\
    forall r, Text.ascii_only (name r) = true ->
      (In r out <->
       In r df /\
       Text.occurs_ignoring_case search (name r) /\
       rating_within r (fst rating_range) (snd rating_range) /\
       min_count <= rating_count r).
Proof.
  intros Hp _ Hk.
  destruct (column_named sort_by) as [key|] eqn:Ek; [clear Hk | congruence].
  destruct (plain_search_is_substring search EmptyString Hp) as (re & Hre & _).
  eexists. split; [apply filter_data_runs; eassumption|].
  intros r _. rewrite in_sort, in_df_filter, popular_mask_keeps.
  destruct (plain_search_is_substring search (name r) Hp) as (re' & Hre' & Hm).
  rewrite Hre in Hre'. injection Hre' as <-. rewrite Hm. tauto.
Qed.

(** X2. The same for [filter_upcoming_data]: on an ASCII search text
    without special characters it returns, and of the records with an ASCII
    title it keeps exactly those released after the day of the run whose
    title holds the text and whose hype count is in the range. *)
Theorem filter_upcoming_data_plain_search df search min_hypes max_hypes sort_by order w :
  Text.plain search = true ->
  Text.ascii_only search = true ->
  exists out,
    filter_upcoming_data sort df search min_hypes max_hypes sort_by order w
      = (Some out, w) /\
    forall r, Text.ascii_only (name r) = true ->
      (In r out <->
       In r df /\
       released_after r (today w) /\
       Text.occurs_ignoring_case search (name r) /\
       hype_within r min_hypes max_hypes).
Proof.
  intros Hp _.
  destruct (plain_search_is_substring search EmptyString Hp) as (re & Hre & _).
  eexists. split; [apply filter_upcoming_data_runs; exact Hre|].
  intros r _. rewrite in_sort, in_df_filter, upcoming_mask_keeps.
  destruct (plain_search_is_substring search (name r) Hp) as (re' & Hre' & Hm).
  rewrite Hre in Hre'. injection Hre' as <-. rewrite Hm. tauto.
Qed.

End FilterFacts.

Lemma filter_data_plain_search_witness :
  exists out,
    filter_data insertion_sort [halo; hades; doom] "HAL" (0, 100) 0 "rating" "ASC"
      {| today := 0; session_state := fresh_session |}
    = (Some out, {| today := 0; session_state := fresh_session |}) /\
    forall r, Text.ascii_only (name r) = true ->
      (In r out <->
       In r [halo; hades; doom] /\
       Text.occurs_ignoring_case "HAL" (name r) /\
       rating_within r (fst (0, 100)) (snd (0, 100)) /\
       0 <= rating_count r).
Proof.
  apply (filter_data_plain_search insertion_sort insertion_sort_contract
           [halo; hades; doom] "HAL" (0, 100) 0 "rating" "ASC");
    [reflexivity | reflexivity | discriminate].
Defined.

Lemma filter_upcoming_data_plain_search_witness :
  exists out,
    filter_upcoming_data insertion_sort [halo; hades; doom] "hades" 0 50
      "Release Date" "Ascending" {| today := 20000; session_state := fresh_session |}
    = (Some out, {| today := 20000; session_state := fresh_session |}) /\
    forall r, Text.ascii_only (name r) = true ->
      (In r out <->
       In r [halo; hades; doom] /\
       released_after r 20000 /\
       Text.occurs_ignoring_case "hades" (name r) /\
       hype_within r 0 50).
Proof.
  apply (filter_upcoming_data_plain_search insertion_sort insertion_sort_contract
           [halo; hades; doom] "hades" 0 50 "Release Date" "Ascending"
           {| today := 20000; session_state := fresh_session |});
    reflexivity.
Defined.

(* ------------------------------------------------------------------ *)
(** * Pages *)

Lemma firstn_clip {A} (k : nat) (l : list A) :
  firstn (Nat.min k (List.length l)) l = firstn k l.
Proof.
  destruct (Nat.le_ge_cases k (List.length l)) as [H|H].
  - rewrite Nat.min_l by exact H. reflexivity.
  - rewrite Nat.min_r by exact H. rewrite firstn_all, firstn_all2 by exact H.
    reflexivity.
Qed.

(** From an offset that is not negative, [slice] is "drop, then take". *)
Lemma slice_from (offset : Z) (len : nat) (df : DataFrame) :
  0 <= offset ->
  slice offset len df = firstn len (skipn (Z.to_nat offset) df).
Proof.
  intro H0. unfold slice.
  destruct (offset <? 0) eqn:E; [apply Z.ltb_lt in E; lia|].
  destruct (Z.le_gt_cases (Z.of_nat (List.length df)) offset) as [Hout|Hin].
  - rewrite (skipn_all2 (n := Z.to_nat offset)) by lia.
    rewrite skipn_all2 by lia. rewrite !firstn_nil. reflexivity.
  - rewrite <- (firstn_clip len). rewrite length_skipn. f_equal; [|f_equal]; lia.
Qed.

Lemma slice_length (offset : Z) (len : nat) (df : DataFrame) :
  (List.length (slice offset len df) <= len)%nat.
Proof.
  unfold slice. rewrite length_firstn. lia.
Qed.

Lemma paginate_first (df : DataFrame) (rows : nat) :
  paginate df 1 rows = firstn rows df.
Proof.
  unfold paginate. rewrite slice_from by lia. reflexivity.
Qed.

Lemma paginate_next (df : DataFrame) (page : Z) (rows : nat) :
  1 <= page ->
  paginate df (page + 1) rows = paginate (skipn rows df) page rows.
Proof.
  intro H. unfold paginate. rewrite !slice_from by nia.
  rewrite skipn_skipn. do 2 f_equal. nia.
Qed.

Lemma ceil_div_covers (a b : Z) : 0 < b -> a <= ceil_div a b * b.
Proof.
  intro Hb. unfold ceil_div.
  pose proof (Z.mul_div_le (- a) b Hb). nia.
Qed.

Lemma ceil_div_least (a b k : Z) : 0 < b -> a <= k * b -> ceil_div a b <= k.
Proof.
  intros Hb H. unfold ceil_div.
  assert (- k <= (- a) / b); [|lia].
  apply Z.div_le_lower_bound; nia.
Qed.

Lemma pages_cover (rows : nat) (n : nat) : forall df : DataFrame,
  (0 < rows)%nat ->
  (List.length df <= n * rows)%nat ->
  List.concat (map (fun p => paginate df (Z.of_nat p) rows) (seq 1 n)) = df.
Proof.
  induction n as [|n IH]; intros df Hr Hlen.
  - destruct df; [reflexivity | simpl in Hlen; lia].
  - cbn [seq map]. change (Z.of_nat 1) with 1.
    rewrite paginate_first, <- seq_shift, map_map.
    rewrite (map_ext_in _ (fun p => paginate (skipn rows df) (Z.of_nat p) rows)).
    + cbn [List.concat]. rewrite IH; [apply firstn_skipn | exact Hr | rewrite length_skipn; lia].
    + intros p Hp. apply in_seq in Hp.
      rewrite Nat2Z.inj_succ, <- Z.add_1_r. apply paginate_next. lia.
Qed.

(** C5. For a page number of at least 1 and the page size [ROWS_PER_PAGE]
    (20), [paginate] returns the rows at the indices
    [(page-1)*20 <= k < page*20] that exist in the frame, in order: row [i]
    of the page is row [(page-1)*20 + i] of the frame for [i < 20], and the
    page has no row from 20 on.  A page number beyond the number of pages
    gives the empty page; the function is total, so no call fails. *)
Theorem paginate_window (df : DataFrame) (page : Z) :
  1 <= page ->
  (forall i : nat,
      nth_error (paginate df page (Z.to_nat ROWS_PER_PAGE)) i =
      if (i <? 20)%nat
      then nth_error df (Z.to_nat ((page - 1) * 20) + i)
      else None) /\
  (spec_total_pages (Z.of_nat (List.length df)) ROWS_PER_PAGE < page ->
   paginate df page (Z.to_nat ROWS_PER_PAGE) = []).
Proof.
  intro Hp. change (Z.to_nat ROWS_PER_PAGE) with 20%nat.
  unfold paginate. rewrite slice_from by lia.
  change (Z.of_nat 20) with 20. split.
  - intro i. rewrite nth_error_firstn, nth_error_skipn. reflexivity.
  - unfold spec_total_pages, ceil_div, ROWS_PER_PAGE. intro H.
    rewrite skipn_all2; [apply firstn_nil|].
    assert (Z.of_nat (List.length df) <= (page - 1) * 20); [|lia].
    Z.div_mod_to_equations. lia.
Qed.

Lemma paginate_window_witness :
  1 <= 3 /\ paginate (repeat halo 25) 3 (Z.to_nat ROWS_PER_PAGE) = [].
Proof.
  split; [lia|].
  apply (paginate_window (repeat halo 25) 3); [lia | vm_compute; reflexivity].
Defined.

(** C7. For a page size of at least 1, a page never has more rows than the
    page size, and the pages 1, 2, ... up to the last one, put one after the
    other, are the frame itself: every row once, in its place.  The last
    page may be any [n] with [n * rows] at least the number of rows, among
    them the page count of the specification. *)
Theorem paginate_pages (df : DataFrame) (rows : nat) :
  (1 <= rows)%nat ->
  (forall page : Z, (List.length (paginate df page rows) <= rows)%nat) /\
  (forall n : nat,
      (List.length df <= n * rows)%nat ->
      List.concat (map (fun p => paginate df (Z.of_nat p) rows) (seq 1 n)) = df) /\
  List.concat
    (map (fun p => paginate df (Z.of_nat p) rows)
       (seq 1 (Z.to_nat (spec_total_pages (Z.of_nat (List.length df))
                           (Z.of_nat rows))))) = df.
Proof.
  intro Hr. split; [|split].
  - intro page. apply slice_length.
  - intros n Hn. apply pages_cover; [lia | exact Hn].
  - apply pages_cover; [lia|].
    unfold spec_total_pages.
    pose proof (ceil_div_covers (Z.of_nat (List.length df)) (Z.of_nat rows)).
    nia.
Qed.

Lemma paginate_pages_witness :
  List.concat
    (map (fun p => paginate [halo; hades; doom; quake; halo] (Z.of_nat p) 2) (seq 1 3))
  = [halo; hades; doom; quake; halo].
Proof.
  refine (proj1 (proj2 (paginate_pages [halo; hades; doom; quake; halo] 2 _)) 3%nat _);
    simpl; lia.
Defined.

(* ------------------------------------------------------------------ *)
(** * The page number across reruns *)

Lemma pagination_controls_spec k prev next pages w :
  let p := page_after (lookup k (session_state w)) prev next pages in
  let r := pagination_controls k prev next pages w in
  fst r = Some p /\
  lookup k (session_state (snd r)) = Some p /\
  (forall k', k' <> k ->
     lookup k' (session_state (snd r)) = lookup k' (session_state w)) /\
  today (snd r) = today w.
Proof.
  destruct w as [d [pn un]].
  unfold pagination_controls, page_after, bind, has_page, get_page, set_page, when, ret.
  destruct k; simpl.
  - destruct pn as [p|]; simpl;
      destruct prev; simpl;
      try (destruct (_ >? 1); simpl);
      destruct next; simpl;
      try (destruct (_ <? pages); simpl);
      (repeat split; try reflexivity; intros [] H; simpl; congruence).
  - destruct un as [p|]; simpl;
      destruct prev; simpl;
      try (destruct (_ >? 1); simpl);
      destruct next; simpl;
      try (destruct (_ <? pages); simpl);
      (repeat split; try reflexivity; intros [] H; simpl; congruence).
Qed.

Lemma page_after_ge_1 stored prev next pages :
  (forall p, stored = Some p -> 1 <= p) ->
  1 <= page_after stored prev next pages.
Proof.
  intro H. unfold page_after.
  destruct stored as [p|]; [specialize (H p eq_refl)|];
    destruct prev, next; simpl;
    repeat match goal with
      | |- context [?a >? ?b] => destruct (Z.gtb_spec a b)
      | |- context [?a <? ?b] => destruct (Z.ltb_spec a b)
      end; lia.
Qed.

Section ViewFacts.

Variable sort : sorter.

Lemma filter_data_world df search rating_range min_count sort_by order w :
  snd (filter_data sort df search rating_range min_count sort_by order w) = w.
Proof.
  unfold filter_data, bind, of_option, ret, raise.
  destruct (Text.regex_compile (Text.lower search)); [|reflexivity].
  destruct (column_named sort_by); [|reflexivity].
  destruct (order =? "ASC")%string; reflexivity.
Qed.

Lemma filter_upcoming_data_world df search min_hypes max_hypes sort_by order w :
  snd (filter_upcoming_data sort df search min_hypes max_hypes sort_by order w) = w.
Proof.
  unfold filter_upcoming_data, bind, of_option, date_today, ret, raise. simpl.
  destruct (Text.regex_compile (Text.lower search)); [|reflexivity].
  destruct (sort_by =? "Release Date")%string; reflexivity.
Qed.

(** A run of a view either stops before the pagination lines, with the
    world untouched, or shows the page its pagination lines arrive at and
    leaves the world they leave. *)
Lemma popular_view_cases full_df c pressed w :
  popular_view sort full_df c pressed w = (None, w) \/
  exists out pages,
    fst (filter_data sort full_df (search_popular c) (rating_range_popular c)
           (min_count_popular c) (sort_by_popular c)
           (if (order_popular c =? "Descending")%string then "DESC" else "ASC") w)
      = Some out /\
    total_pages (Z.of_nat (List.length out)) = Some pages /\
    let prev := st_button pressed prev_popular in
    let next := st_button pressed next_popular in
    let p := page_after (page_num (session_state w)) prev next pages in
    popular_view sort full_df c pressed w =
    (Some {| shown_page := p; shown_total := pages;
             cards := paginate out p (Z.to_nat ROWS_PER_PAGE) |},
     snd (pagination_controls key_page_num prev next pages w)).
Proof.
  unfold popular_view. cbv zeta.
  set (order := if (order_popular c =? "Descending")%string then "DESC" else "ASC").
  unfold bind, of_option, ret, raise.
  pose proof (filter_data_world full_df (search_popular c) (rating_range_popular c)
                (min_count_popular c) (sort_by_popular c) order w) as Hw.
  destruct (filter_data _ _ _ _ _ _ _ w) as [[out|] w1];
    simpl in Hw; subst w1; [|left; reflexivity].
  destruct (total_pages _) as [pages|] eqn:Ep; [|left; reflexivity].
  right. exists out, pages. split; [reflexivity|]. split; [exact Ep|].
  destruct (pagination_controls_spec key_page_num (st_button pressed prev_popular)
              (st_button pressed next_popular) pages w) as (Hp & _).
  simpl in Hp.
  destruct (pagination_controls _ _ _ _ _) as [[p|] w2]; simpl in Hp;
    [injection Hp as -> | discriminate].
  reflexivity.
Qed.

Lemma upcoming_view_cases full_df c pressed w :
  upcoming_view sort full_df c pressed w = (None, w) \/
  exists out pages,
    fst (filter_upcoming_data sort full_df (search_upcoming c)
           (fst (hypes_range c)) (snd (hypes_range c))
           (sort_by_upcoming c) (order_upcoming c) w) = Some out /\
    total_pages (Z.of_nat (List.length out)) = Some pages /\
    let prev := st_button pressed prev_upcoming in
    let next := st_button pressed next_upcoming in
    let p := page_after (upcoming_page_num (session_state w)) prev next pages in
    upcoming_view sort full_df c pressed w =
    (Some {| shown_page := p; shown_total := pages;
             cards := paginate out p (Z.to_nat ROWS_PER_PAGE) |},
     snd (pagination_controls key_upcoming_page_num prev next pages w)).
Proof.
  unfold upcoming_view. cbv zeta.
  unfold bind, of_option, ret, raise.
  pose proof (filter_upcoming_data_world full_df (search_upcoming c)
                (fst (hypes_range c)) (snd (hypes_range c))
                (sort_by_upcoming c) (order_upcoming c) w) as Hw.
  destruct (filter_upcoming_data _ _ _ _ _ _ _ w) as [[out|] w1];
    simpl in Hw; subst w1; [|left; reflexivity].
  destruct (total_pages _) as [pages|] eqn:Ep; [|left; reflexivity].
  right. exists out, pages. split; [reflexivity|]. split; [exact Ep|].
  destruct (pagination_controls_spec key_upcoming_page_num
              (st_button pressed prev_upcoming)
              (st_button pressed next_upcoming) pages w) as (Hp & _).
  simpl in Hp.
  destruct (pagination_controls _ _ _ _ _) as [[p|] w2]; simpl in Hp;
    [injection Hp as -> | discriminate].
  reflexivity.
Qed.

Lemma popular_view_world full_df c pressed w :
  snd (popular_view sort full_df c pressed w) = w \/
  exists pages,
    snd (popular_view sort full_df c pressed w) =
    snd (pagination_controls key_page_num (st_button pressed prev_popular)
           (st_button pressed next_popular) pages w).
Proof.
  destruct (popular_view_cases full_df c pressed w) as [-> | (out & pages & _ & _ & ->)];
    [left; reflexivity | right; exists pages; reflexivity].
Qed.

Lemma upcoming_view_world full_df c pressed w :
  snd (upcoming_view sort full_df c pressed w) = w \/
  exists pages,
    snd (upcoming_view sort full_df c pressed w) =
    snd (pagination_controls key_upcoming_page_num (st_button pressed prev_upcoming)
           (st_button pressed next_upcoming) pages w).
Proof.
  destruct (upcoming_view_cases full_df c pressed w) as [-> | (out & pages & _ & _ & ->)];
    [left; reflexivity | right; exists pages; reflexivity].
Qed.

Lemma pagination_controls_from_1 k prev next pages w :
  pages_from_1 w ->
  pages_from_1 (snd (pagination_controls k prev next pages w)).
Proof.
  intros Hw k' p' H.
  destruct (pagination_controls_spec k prev next pages w) as (_ & Hk & Hother & _).
  assert (Hdec : k' = k \/ k' <> k) by (destruct k, k'; auto; right; discriminate).
  destruct Hdec as [->|Hne].
  - rewrite Hk in H. injection H as <-. apply page_after_ge_1. apply Hw.
  - rewrite (Hother k' Hne) in H. eapply Hw, H.
Qed.

Lemma reachable_from_1 w : reachable sort w -> pages_from_1 w.
Proof.
  induction 1 as [date | w date df c pressed _ IH | w date df c pressed _ IH].
  - intros [] p; discriminate.
  - destruct (popular_view_world df c pressed (on_day date w)) as [-> | [pages ->]];
      [exact IH | apply pagination_controls_from_1, IH].
  - destruct (upcoming_view_world df c pressed (on_day date w)) as [-> | [pages ->]];
      [exact IH | apply pagination_controls_from_1, IH].
Qed.

End ViewFacts.

(* ------------------------------------------------------------------ *)
(** * A session on page 3 *)

Lemma on_page_3_reachable : reachable insertion_sort on_page_3.
Proof.
  assert (E : on_page_3 =
    snd (popular_view insertion_sort catalogue initial_popular (Some next_popular)
      (on_day 0
        (snd (popular_view insertion_sort catalogue initial_popular (Some next_popular)
          (on_day 0 {| today := 0; session_state := fresh_session |}))))))
    by (vm_compute; reflexivity).
  rewrite E. apply reach_popular, reach_popular, reach_fresh.
Qed.

(** The walk of the specification's scenario: 25 games that pass the default
    filters make 2 pages; page 1 shows 20 of them, "Next" shows the other 5,
    and "Next" once more stays on page 2. *)
Lemma scenario_25_games :
  let df := firstn 25 catalogue in
  let start := {| today := 0; session_state := fresh_session |} in
  let first := popular_view insertion_sort df initial_popular None start in
  let second := popular_view insertion_sort df initial_popular (Some next_popular)
                  (snd first) in
  let third := popular_view insertion_sort df initial_popular (Some next_popular)
                 (snd second) in
  option_map (fun pg => (shown_page pg, shown_total pg, List.length (cards pg)))
    (fst first) = Some (1, 2, 20%nat) /\
  option_map (fun pg => (shown_page pg, shown_total pg, List.length (cards pg)))
    (fst second) = Some (2, 2, 5%nat) /\
  option_map (fun pg => (shown_page pg, shown_total pg, List.length (cards pg)))
    (fst third) = Some (2, 2, 5%nat).
Proof. repeat split; vm_compute; reflexivity. Qed.

(** A hype range of [0, 0] over games that all have some hype: no card, one
    page, no error. *)
Lemma scenario_no_hype :
  fst (upcoming_view insertion_sort [hades]
         {| search_upcoming := ""; hypes_range := (0, 0);
            sort_by_upcoming := "Hypes"; order_upcoming := "Descending" |}
         None {| today := 20000; session_state := fresh_session |})
  = Some {| shown_page := 1; shown_total := 1; cards := [] |}.
Proof. vm_compute. reflexivity. Qed.

(** C3, as stated, fails.  The session is on page 3 of the popular view
    (two clicks on "Next" over 45 games); the user types a title into the
    search box, which reruns the script with the new text and no button
    pressed.  The page number stays 3, and the view shows "Page 3 of 1". *)
Lemma search_change_keeps_page_3 :
  reachable insertion_sort on_page_3 /\
  search_popular typed_popular <> search_popular initial_popular /\
  popular_view insertion_sort catalogue typed_popular None on_page_3 =
    (Some {| shown_page := 3; shown_total := 1; cards := [] |}, on_page_3) /\
  page_num (session_state on_page_3) <> Some 1.
Proof.
  split; [exact on_page_3_reachable|].
  split; [discriminate|].
  split; [vm_compute; reflexivity | discriminate].
Qed.

(** C3, amended.  A rerun in which no pagination button is pressed, which is
    what a change of a filter control causes, leaves the stored page number
    of the view as it is, whatever the snapshot and the new widget values;
    only a session with no stored page number gets page 1. *)
Theorem filter_change_keeps_page (sort : sorter) (w : World) :
  (forall full_df c p,
      page_num (session_state w) = Some p ->
      page_num (session_state (snd (popular_view sort full_df c None w))) = Some p) /\
  (forall full_df c p,
      upcoming_page_num (session_state w) = Some p ->
      upcoming_page_num (session_state (snd (upcoming_view sort full_df c None w)))
        = Some p) /\
  (forall full_df c pg,
      page_num (session_state w) = None ->
      fst (popular_view sort full_df c None w) = Some pg -> shown_page pg = 1) /\
  (forall full_df c pg,
      upcoming_page_num (session_state w) = None ->
      fst (upcoming_view sort full_df c None w) = Some pg -> shown_page pg = 1).
Proof.
  repeat split.
  - intros df c p Hp.
    destruct (popular_view_cases sort df c None w)
      as [-> | (out & pages & _ & _ & ->)]; [exact Hp|].
    destruct (pagination_controls_spec key_page_num false false pages w)
      as (_ & H & _).
    simpl in *. rewrite H, Hp. reflexivity.
  - intros df c p Hp.
    destruct (upcoming_view_cases sort df c None w)
      as [-> | (out & pages & _ & _ & ->)]; [exact Hp|].
    destruct (pagination_controls_spec key_upcoming_page_num false false pages w)
      as (_ & H & _).
    simpl in *. rewrite H, Hp. reflexivity.
  - intros df c pg Hp.
    destruct (popular_view_cases sort df c None w)
      as [-> | (out & pages & _ & _ & ->)]; [discriminate|].
    simpl. rewrite Hp. intros [= <-]. reflexivity.
  - intros df c pg Hp.
    destruct (upcoming_view_cases sort df c None w)
      as [-> | (out & pages & _ & _ & ->)]; [discriminate|].
    simpl. rewrite Hp. intros [= <-]. reflexivity.
Qed.

Lemma filter_change_keeps_page_witness :
  page_num (session_state
    (snd (popular_view insertion_sort catalogue typed_popular None on_page_3))) = Some 3.
Proof.
  apply (proj1 (filter_change_keeps_page insertion_sort on_page_3)).
  reflexivity.
Defined.

(** C8, as stated, fails on "next".  The session is on page 3; the search
    text now matches nothing, so the view has one page.  A click on "Next"
    leaves the page number at 3, where [min(totalPages, page+1)] is 1. *)
Lemma next_beyond_last_page :
  reachable insertion_sort on_page_3 /\
  popular_view insertion_sort catalogue typed_popular (Some next_popular) on_page_3 =
    (Some {| shown_page := 3; shown_total := 1; cards := [] |}, on_page_3) /\
  Z.min 1 (3 + 1) <> 3.
Proof.
  split; [exact on_page_3_reachable|].
  split; [vm_compute; reflexivity | discriminate].
Qed.

(** C8, amended.  For either view ([k] is its key in the session state):
    the first run, with no page stored, arrives at page 1; "previous" takes
    a page [p >= 1] to [max 1 (p-1)]; "next" takes [p] to [p+1] when
    [p < pages] and leaves it alone otherwise, which is [min pages (p+1)]
    whenever [p <= pages], and in particular leaves the last page alone;
    a page within [1 .. pages] stays within it under either button; the
    page arrived at is the one stored for the next rerun; and in every
    world a user can reach, a stored page number is at least 1. *)
Theorem page_navigation (sort : sorter) (k : page_key) (pages : Z) (w : World) :
  let stored := lookup k (session_state w) in
  let run prev next := pagination_controls k prev next pages w in
  (stored = None -> fst (run false false) = Some 1) /\
  (forall p, stored = Some p -> 1 <= p ->
     fst (run true false) = Some (Z.max 1 (p - 1))) /\
  (forall p, stored = Some p ->
     fst (run false true) = Some (if p <? pages then p + 1 else p)) /\
  (forall p, stored = Some p -> p <= pages ->
     fst (run false true) = Some (Z.min pages (p + 1))) /\
  (stored = Some pages -> fst (run false true) = Some pages) /\
  (forall p prev next, stored = Some p -> 1 <= p <= pages ->
     exists p', fst (run prev next) = Some p' /\ 1 <= p' <= pages) /\
  (forall prev next,
     lookup k (session_state (snd (run prev next))) = fst (run prev next)) /\
  (reachable sort w -> forall p, stored = Some p -> 1 <= p).
Proof.
  cbv zeta.
  assert (Hrun : forall prev next,
    fst (pagination_controls k prev next pages w) =
    Some (page_after (lookup k (session_state w)) prev next pages))
    by (intros; apply pagination_controls_spec).
  repeat split.
  - intro H. rewrite Hrun, H. reflexivity.
  - intros p H Hp. rewrite Hrun, H. unfold page_after. simpl.
    destruct (Z.gtb_spec p 1); f_equal; lia.
  - intros p H. rewrite Hrun, H. reflexivity.
  - intros p H Hp. rewrite Hrun, H. unfold page_after. simpl.
    destruct (Z.ltb_spec p pages); f_equal; lia.
  - intro H. rewrite Hrun, H. unfold page_after. simpl.
    rewrite Z.ltb_irrefl. reflexivity.
  - intros p prev next H Hp. rewrite Hrun, H. eexists. split; [reflexivity|].
    unfold page_after. destruct prev, next; simpl;
      repeat match goal with
        | |- context [?a >? ?b] => destruct (Z.gtb_spec a b)
        | |- context [?a <? ?b] => destruct (Z.ltb_spec a b)
        end; lia.
  - intros prev next. rewrite Hrun. apply pagination_controls_spec.
  - intros Hw p H. eapply (reachable_from_1 _ _ Hw), H.
Qed.

Lemma page_navigation_witness :
  fst (pagination_controls key_page_num false true 3 on_page_3) = Some 3.
Proof.
  apply (proj1 (proj2 (proj2 (proj2 (proj2
           (page_navigation insertion_sort key_page_num 3 on_page_3)))))).
  reflexivity.
Defined.

(* ------------------------------------------------------------------ *)
(** * The search box reads its text as a pattern *)

Lemma singleton_sorted (sort : sorter) key descending (r : GameRecord) :
  sort_contract sort -> sort key descending [r] = [r].
Proof.
  intro H. apply Permutation_length_1_inv, (sort_perm _ H).
Qed.

Lemma not_substring (p s : string) :
  Text.is_match (literal p) s = false -> ~ Text.substring_of p s.
Proof.
  intros H Hs. apply is_match_literal in Hs. congruence.
Qed.

(** C1, at the input that breaks it.  The user types a full stop into the
    search box of the popular view.  [str.contains] reads it as the pattern
    "any character", so "Halo" is kept although its title has no full stop;
    the other two conditions hold for it. *)
Theorem filter_data_dot_search (sort : sorter) (w : World) :
  sort_contract sort ->
  filter_data sort [halo] "." (0, 100) 0 "rating_count" "DESC" w = (Some [halo], w) /\
  ~ Text.occurs_ignoring_case "." (name halo) /\
  rating_within halo 0 100 /\
  0 <= rating_count halo.
Proof.
  intro Hs. split; [|split; [|split]].
  - rewrite (filter_data_runs sort [halo] "." (0, 100) 0 "rating_count" "DESC"
               [Text.AnyChar] col_rating_count w eq_refl eq_refl).
    change (df_filter (popular_mask [Text.AnyChar] (0, 100) 0) [halo]) with [halo].
    rewrite singleton_sorted by exact Hs. reflexivity.
  - apply not_substring. reflexivity.
  - exists (87 # 1). repeat split; discriminate.
  - discriminate.
Qed.

Lemma filter_data_dot_search_witness :
  filter_data insertion_sort [halo] "." (0, 100) 0 "rating_count" "DESC"
    {| today := 0; session_state := fresh_session |}
  = (Some [halo], {| today := 0; session_state := fresh_session |}).
Proof.
  apply (filter_data_dot_search insertion_sort _ insertion_sort_contract).
Defined.

(** C2, at the input that breaks it: the same full stop in the search box of
    the upcoming view keeps "Hades II", released after the day of the run
    and with a hype count in the range. *)
Theorem filter_upcoming_data_dot_search (sort : sorter) (s : SessionState) :
  sort_contract sort ->
  let w := {| today := 20000; session_state := s |} in
  filter_upcoming_data sort [hades] "." 0 50 "Hypes" "Descending" w
    = (Some [hades], w) /\
  ~ Text.occurs_ignoring_case "." (name hades) /\
  released_after hades (today w) /\
  hype_within hades 0 50.
Proof.
  intros Hs w. split; [|split; [|split]].
  - rewrite (filter_upcoming_data_runs sort [hades] "." 0 50 "Hypes" "Descending"
               [Text.AnyChar] w eq_refl).
    change (df_filter (upcoming_mask (today w) [Text.AnyChar] 0 50) [hades])
      with [hades].
    rewrite singleton_sorted by exact Hs. reflexivity.
  - apply not_substring. reflexivity.
  - reflexivity.
  - split; discriminate.
Qed.

Lemma filter_upcoming_data_dot_search_witness :
  filter_upcoming_data insertion_sort [hades] "." 0 50 "Hypes" "Descending"
    {| today := 20000; session_state := fresh_session |}
  = (Some [hades], {| today := 20000; session_state := fresh_session |}).
Proof.
  apply (filter_upcoming_data_dot_search insertion_sort fresh_session
           insertion_sort_contract).
Defined.

(* ------------------------------------------------------------------ *)
(** * Null ratings *)

(** C10. A record whose rating is null is in no output of [filter_data],
    whatever the search text, the rating range and the minimum count: both
    range comparisons are null for it, so its mask is never true. *)
Theorem filter_data_drops_null_rating (sort : sorter) (df : DataFrame)
    (search : string) (rating_range : Z * Z) (min_count : Z) (sort_by order : string)
    (w : World) (out : DataFrame) (r : GameRecord) :
  sort_contract sort ->
  fst (filter_data sort df search rating_range min_count sort_by order w) = Some out ->
  rating r = None ->
  ~ In r out.
Proof.
  intros Hs Hout Hnull Hin.
  apply filter_data_inv in Hout as (re & key & _ & _ & ->).
  rewrite (in_sort sort Hs), in_df_filter, popular_mask_keeps in Hin.
  destruct Hin as (_ & _ & (q & Hq & _) & _). congruence.
Qed.

Lemma filter_data_drops_null_rating_witness :
  fst (filter_data insertion_sort [hades; halo] "" (0, 100) 0 "rating" "DESC"
         {| today := 0; session_state := fresh_session |}) = Some [halo] /\
  ~ In hades [halo].
Proof.
  split; [reflexivity|].
  apply (filter_data_drops_null_rating insertion_sort [hades; halo] "" (0, 100) 0
           "rating" "DESC" {| today := 0; session_state := fresh_session |});
    [exact insertion_sort_contract | reflexivity | reflexivity].
Defined.

(* ------------------------------------------------------------------ *)
(** * What the filters read and write *)

(** C9, as stated, fails for [filter_upcoming_data]: it reads the date of
    the day, which is none of its arguments.  The same snapshot and the same
    arguments give "Hades II" (released on day 20100) on day 20099 and
    nothing on day 20100. *)
Lemma filter_upcoming_data_depends_on_day :
  fst (filter_upcoming_data insertion_sort [hades] "" 0 50 "Hypes" "Descending"
         {| today := 20099; session_state := fresh_session |}) = Some [hades] /\
  fst (filter_upcoming_data insertion_sort [hades] "" 0 50 "Hypes" "Descending"
         {| today := 20100; session_state := fresh_session |}) = Some [].
Proof.
  split; reflexivity.
Qed.

(** C9, amended.  Neither filter changes the world (no side effect).  The
    output of [filter_data] is the same in any two worlds; the output of
    [filter_upcoming_data] is the same in any two worlds that agree on the
    date of the day. *)
Theorem filters_read_only (sort : sorter) (df : DataFrame) (search : string)
    (w1 w2 : World) :
  (forall rating_range min_count sort_by order,
      fst (filter_data sort df search rating_range min_count sort_by order w1) =
      fst (filter_data sort df search rating_range min_count sort_by order w2) /\
      snd (filter_data sort df search rating_range min_count sort_by order w1) = w1) /\
  (forall min_hypes max_hypes sort_by order,
      (today w1 = today w2 ->
       fst (filter_upcoming_data sort df search min_hypes max_hypes sort_by order w1) =
       fst (filter_upcoming_data sort df search min_hypes max_hypes sort_by order w2)) /\
      snd (filter_upcoming_data sort df search min_hypes max_hypes sort_by order w1)
        = w1).
Proof.
  split.
  - intros rating_range min_count sort_by order.
    split; [|apply filter_data_world].
    unfold filter_data, bind, of_option, ret, raise.
    destruct (Text.regex_compile (Text.lower search)); [|reflexivity].
    destruct (column_named sort_by); [|reflexivity].
    destruct (order =? "ASC")%string; reflexivity.
  - intros min_hypes max_hypes sort_by order.
    split; [|apply filter_upcoming_data_world].
    intro Hday.
    unfold filter_upcoming_data, bind, of_option, date_today, ret, raise.
    rewrite Hday.
    destruct (Text.regex_compile (Text.lower search)); [|reflexivity].
    destruct (sort_by =? "Release Date")%string; reflexivity.
Qed.

Lemma filters_read_only_witness :
  fst (filter_upcoming_data insertion_sort [hades] "" 0 50 "Hypes" "Descending"
         {| today := 20099; session_state := fresh_session |}) =
  fst (filter_upcoming_data insertion_sort [hades] "" 0 50 "Hypes" "Descending"
         (on_day 20099 on_page_3)).
Proof.
  apply (proj1 (proj2 (filters_read_only insertion_sort [hades] ""
                         {| today := 20099; session_state := fresh_session |}
                         (on_day 20099 on_page_3))
                  0 50 "Hypes" "Descending")).
  reflexivity.
Defined.

(* ------------------------------------------------------------------ *)
(** * Order of the output *)

(** Which of two rows with the same key comes first is decided inside
    [DataFrame.sort], which is code of the library and not of the program;
    the program leaves [maintain_order] at its default, for which the
    library makes no promise.  The contract leaves it open as well: of the
    two sorters that meet it, one keeps two games of the same rating in
    the order of the input and the other turns them around. *)
Remark sort_contract_leaves_ties_open :
  sort_contract insertion_sort /\ sort_contract reversing_sort /\
  fst (filter_data insertion_sort [doom; quake] "" (0, 100) 0 "rating" "DESC"
         first_visit) = Some [doom; quake] /\
  fst (filter_data reversing_sort [doom; quake] "" (0, 100) 0 "rating" "DESC"
         first_visit) = Some [quake; doom] /\
  keeps_tie_order col_rating [doom; quake] [doom; quake] /\
  ~ keeps_tie_order col_rating [doom; quake] [quake; doom].
Proof.
  split; [exact insertion_sort_contract|].
  split; [exact reversing_sort_contract|].
  split; [reflexivity|]. split; [reflexivity|]. split.
  - intros x y _ _ _ H. exact H.
  - intro H.
    destruct (H doom quake) as (l1 & l2 & l3 & E).
    + right; left; reflexivity.
    + left; reflexivity.
    + reflexivity.
    + exists [], [], []. reflexivity.
    + destruct l1 as [|a [|b l1]]; simpl in E.
      * discriminate.
      * injection E as _ E. destruct l2; discriminate.
      * injection E as _ _ E. destruct l1; discriminate.
Qed.

(* ------------------------------------------------------------------ *)
(** * The page count: binary64 division, then [math.ceil] *)

Lemma digits2_size (p : positive) : digits2_pos p = Pos.size p.
Proof. induction p; simpl; congruence. Qed.

Lemma Zdigits2_log2 (n : Z) : 0 < n -> Zdigits2 n = Z.log2 n + 1.
Proof.
  destruct n as [|p|p]; try lia. intros _. simpl. rewrite digits2_size.
  destruct p; simpl; lia.
Qed.

Lemma Zdigits2_bounds (n k : Z) :
  2 ^ (k - 1) <= n < 2 ^ k -> 1 <= k -> Zdigits2 n = k.
Proof.
  intros H Hk. assert (0 < n) by (pose proof (Z.pow_pos_nonneg 2 (k - 1)); lia).
  rewrite Zdigits2_log2 by assumption.
  rewrite (Z.log2_unique n (k - 1)); [lia | lia |].
  replace (Z.succ (k - 1)) with k by lia. exact H.
Qed.

Lemma loc_roundtrip m l : loc_of_shr_record (shr_record_of_loc m l) = l.
Proof. destruct l as [|[]]; reflexivity. Qed.

Lemma shr_m_of_loc m l : shr_m (shr_record_of_loc m l) = m.
Proof. destruct l as [|[]]; reflexivity. Qed.

(** A mantissa of exactly 53 bits is not shifted. *)
Lemma shr_fexp_53 q e l :
  2 ^ 52 <= q < 2 ^ 53 -> -1074 <= e ->
  shr_fexp 53 1024 q e l = (shr_record_of_loc q l, e).
Proof.
  intros Hq He. unfold shr_fexp.
  rewrite (Zdigits2_bounds q 53) by (simpl; lia).
  unfold fexp, emin.
  replace (Z.max (53 + e - 53) (3 - 1024 - 53) - e) with 0 by lia.
  reflexivity.
Qed.

Lemma shr_1_pos m r s :
  0 < m ->
  shr_1 {| shr_m := m; shr_r := r; shr_s := s |} =
  {| shr_m := m / 2; shr_r := Z.odd m; shr_s := r || s |}.
Proof.
  intros Hm. destruct m as [|p|p]; try lia.
  destruct p; simpl; f_equal.
  - rewrite Pos2Z.inj_xI. apply Z.div_unique with 1; lia.
  - rewrite Pos2Z.inj_xO. apply Z.div_unique with 0; lia.
Qed.

(** A mantissa of 54 bits loses its last bit, which becomes the round bit. *)
Lemma shr_fexp_54 q e l :
  2 ^ 53 <= q < 2 ^ 54 -> -1074 <= e ->
  shr_fexp 53 1024 q e l =
  ({| shr_m := q / 2; shr_r := Z.odd q;
      shr_s := match l with loc_Exact => false | _ => true end |}, e + 1).
Proof.
  intros Hq He. unfold shr_fexp.
  rewrite (Zdigits2_bounds q 54) by (simpl; lia).
  unfold fexp, emin.
  replace (Z.max (54 + e - 53) (3 - 1024 - 53) - e) with 1 by lia.
  unfold shr. simpl iter_pos.
  destruct l as [|[]]; simpl shr_record_of_loc;
    rewrite shr_1_pos by (simpl in Hq; lia); reflexivity.
Qed.

Lemma rne_bounds m l : m <= round_nearest_even m l <= m + 1.
Proof. destruct l as [|[]]; simpl; try destruct (Z.even m); lia. Qed.

(** The second pass of [binary_round_aux]: the rounded mantissa has 53 bits,
    or is [2^53] and is halved. *)
Lemma renormalize sx m e :
  2 ^ 52 <= m <= 2 ^ 53 -> -1074 <= e <= 960 ->
  exists m' e',
    (let '(mrs, e'') := shr_fexp 53 1024 m e loc_Exact in
     match shr_m mrs with
     | Z0 => S754_zero sx
     | Zpos p => if e'' <=? 1024 - 53 then S754_finite sx p e'' else S754_infinity sx
     | Zneg _ => S754_nan
     end) = S754_finite sx m' e' /\
    e <= e' <= e + 1 /\ Zpos m' * 2 ^ (e' - e) = m.
Proof.
  intros Hm He.
  destruct (Z.eq_dec m (2 ^ 53)) as [->|Hne].
  - rewrite shr_fexp_54 by (simpl; lia). simpl shr_m.
    change (2 ^ 53 / 2) with (Z.pos (2 ^ 52)).
    destruct (Z.leb_spec (e + 1) (1024 - 53)); [|lia].
    exists (2 ^ 52)%positive, (e + 1). split; [reflexivity|]. split; [lia|].
    replace (e + 1 - e) with 1 by lia. reflexivity.
  - rewrite shr_fexp_53 by lia. simpl shr_m.
    destruct m as [|p|p]; try (simpl in Hm; lia).
    destruct (Z.leb_spec e (1024 - 53)); [|lia].
    exists p, e. split; [reflexivity|]. split; [lia|].
    rewrite Z.sub_diag. lia.
Qed.

(** Rounding a quotient of 53 or 54 bits gives a finite number whose
    mantissa, brought back to the unit of [q], is [rounded q l]. *)
Lemma binary_round_aux_quotient sx q e l :
  2 ^ 52 <= q < 2 ^ 54 -> -1074 <= e <= 950 ->
  exists m' e',
    binary_round_aux 53 1024 sx q e l = S754_finite sx m' e' /\
    e <= e' <= e + 2 /\ Zpos m' * 2 ^ (e' - e) = rounded q l.
Proof.
  intros Hq He. unfold binary_round_aux, rounded.
  destruct (Z.ltb_spec q (2 ^ 53)) as [Hlt|Hge].
  - rewrite shr_fexp_53 by lia.
    rewrite shr_m_of_loc, loc_roundtrip.
    pose proof (rne_bounds q l).
    destruct (renormalize sx (round_nearest_even q l) e) as (m' & e' & E & He' & Hv);
      [lia | lia |].
    exists m', e'. split; [exact E|]. split; [lia | exact Hv].
  - rewrite shr_fexp_54 by lia.
    set (l1 := loc_of_shr_record _). simpl shr_m.
    pose proof (rne_bounds (q / 2) l1).
    assert (2 ^ 52 <= q / 2 < 2 ^ 53) by (simpl in *; Z.div_mod_to_equations; lia).
    destruct (renormalize sx (round_nearest_even (q / 2) l1) (e + 1))
      as (m' & e' & E & He' & Hv); [lia | lia |].
    exists m', e'. split; [exact E|]. split; [lia|].
    rewrite <- Hv. replace (e' - e) with (1 + (e' - (e + 1))) by lia.
    rewrite Z.pow_add_r by lia. lia.
Qed.

(** The remainder of a multiple of 4 by 20 is never the half-way point. *)
Lemma location_by_20 r :
  0 <= r < 20 -> r mod 4 = 0 ->
  new_location 20 r = if r =? 0 then loc_Exact
                      else if r <? 10 then loc_Inexact Lt else loc_Inexact Gt.
Proof.
  intros Hr H4. unfold new_location. change (IntDef.Z.even 20) with true. cbv iota.
  unfold new_location_even.
  change IntDef.Z.eqb with Z.eqb. change IntDef.Z.compare with Z.compare.
  change IntDef.Z.mul with Z.mul.
  destruct (Z.eqb_spec r 0); [reflexivity|].
  destruct (Z.ltb_spec r 10).
  - rewrite (proj2 (Z.compare_lt_iff _ _)) by lia. reflexivity.
  - rewrite (proj2 (Z.compare_gt_iff _ _)); [reflexivity|].
    Z.div_mod_to_equations. lia.
Qed.

Ltac split_parity q :=
  let k := fresh "k" in let E := fresh "E" in
  destruct (Z.odd q) eqn:E;
  [ apply Z.odd_spec in E; destruct E as [k E]
  | rewrite <- Z.negb_even in E; apply negb_false_iff, Z.even_spec in E;
    destruct E as [k E] ].

Ltac eval_pow :=
  repeat match goal with
    | |- context [2 ^ ?k] =>
        let v := eval vm_compute in (2 ^ k) in change (2 ^ k) with v
    | H : context [2 ^ ?k] |- _ =>
        let v := eval vm_compute in (2 ^ k) in change (2 ^ k) with v in H
    end.

(** One binade of counts: with the powers of two evaluated, what is left is
    linear arithmetic over the quotient and the remainder by 20. *)
Ltac binade_case :=
  let q := fresh "q" in let r := fresh "r" in
  let Hn := fresh "Hn" in
  let Hq := fresh "Hq" in let Hr := fresh "Hr" in
  let Hr20 := fresh "Hr20" in let Hr4 := fresh "Hr4" in
  intros q r Hn;
  assert (Hq : q = q) by reflexivity; unfold q at 2 in Hq;
  assert (Hr : r = r) by reflexivity; unfold r at 2 in Hr;
  clearbody q r; eval_pow;
  assert (0 <= r < 20 /\ r mod 4 = 0) as [Hr20 Hr4]
    by (Z.div_mod_to_equations; lia);
  rewrite (location_by_20 r Hr20 Hr4);
  split; [Z.div_mod_to_equations; lia|];
  unfold ceil_div, rounded, round_nearest_even;
  change IntDef.Z.even with Z.even; change IntDef.Z.add with Z.add;
  eval_pow;
  destruct (Z.ltb_spec q 9007199254740992);
  [ destruct (Z.eqb_spec r 0); [|destruct (Z.ltb_spec r 10)];
    Z.div_mod_to_equations; lia
  | split_parity q;
    (destruct (Z.eqb_spec r 0); [|destruct (Z.ltb_spec r 10)]);
    cbn [loc_of_shr_record];
    try (destruct (Z.even (q / 2)));
    Z.div_mod_to_equations; lia ].

(** For a count [n] of [d+1] bits, [d <= 52], the quotient of
    [n * 2^(57-d)] by 20 has 53 or 54 bits, and rounding it does not move
    it across an integer: its ceiling is that of [n / 20]. *)
Lemma quotient_rounding (d : nat) (n : Z) :
  (d <= 52)%nat ->
  let q := n * 2 ^ (57 - Z.of_nat d) / 20 in
  let r := (n * 2 ^ (57 - Z.of_nat d)) mod 20 in
  2 ^ Z.of_nat d <= n < 2 ^ (Z.of_nat d + 1) ->
  2 ^ 52 <= q < 2 ^ 54 /\
  ceil_div (rounded q (new_location 20 r)) (2 ^ (57 - Z.of_nat d)) = ceil_div n 20.
Proof.
  intro Hd.
  do 53 (destruct d as [|d]; [binade_case|]).
  lia.
Qed.

Lemma div_core_by_20 (d n : Z) :
  0 <= d <= 52 -> 2 ^ d <= n < 2 ^ (d + 1) ->
  SFdiv_core_binary 53 1024 n 0 20 0 =
  (n * 2 ^ (57 - d) / 20, d - 57, new_location 20 ((n * 2 ^ (57 - d)) mod 20)).
Proof.
  intros Hd Hn. unfold SFdiv_core_binary.
  rewrite (Zdigits2_bounds n (d + 1)) by (replace (d + 1 - 1) with d by lia; lia).
  change (Zdigits2 20) with 5. unfold fexp, emin.
  change IntDef.Z.min with Z.min. change IntDef.Z.max with Z.max.
  change IntDef.Z.sub with Z.sub. change IntDef.Z.add with Z.add.
  change IntDef.Z.shiftl with Z.shiftl. change IntDef.Z.div_eucl with Z.div_eucl.
  replace (Z.min (Z.max (d + 1 + 0 - (5 + 0) - 53) (3 - 1024 - 53)) (0 - 0))
    with (d - 57) by lia.
  replace (0 - 0 - (d - 57)) with (57 - d) by lia.
  destruct (57 - d) as [|s|s] eqn:Es; try lia.
  rewrite Z.shiftl_mul_pow2 by lia.
  unfold Z.div, Z.modulo.
  destruct (Z.div_eucl (n * 2 ^ Z.pos s) 20). reflexivity.
Qed.

Lemma ceil_div_scale a b c :
  0 < b -> 0 < c -> ceil_div (a * c) (b * c) = ceil_div a b.
Proof.
  intros Hb Hc. unfold ceil_div. f_equal.
  rewrite <- Z.mul_opp_l. apply Z.div_mul_cancel_r; lia.
Qed.

(** [ceil_div a b] is the least integer [k] with [a <= k * b]. *)
Lemma ceil_div_spec (a b k : Z) :
  0 < b -> (ceil_div a b = k <-> (k - 1) * b < a <= k * b).
Proof.
  intro Hb. split.
  - intros <-. split; [|apply ceil_div_covers, Hb].
    unfold ceil_div. pose proof (Z.mod_pos_bound (- a) b Hb).
    pose proof (Z.div_mod (- a) b). nia.
  - intros [Hlo Hhi]. apply Z.le_antisymm; [apply ceil_div_least; assumption|].
    pose proof (ceil_div_covers a b Hb). nia.
Qed.

(** Why the bound of the next theorem is there.  The program divides in
    binary64, and far beyond the height of any frame the rounding shows: at
    the count [20 * 2^53 + 1] the quotient [2^53 + 0.05] is rounded to
    [2^53] before [math.ceil] sees it.  No run of the script computes this:
    [total_games] is the height of a frame in memory. *)
Remark total_pages_rounds_down :
  total_pages (20 * 2 ^ 53 + 1) = Some (2 ^ 53) /\
  spec_total_pages (20 * 2 ^ 53 + 1) ROWS_PER_PAGE = 2 ^ 53 + 1.
Proof. split; vm_compute; reflexivity. Qed.

(** C6.  For every count that the views can pass, the height of a frame,
    which is below [2^53], the page count they compute is
    [max(1, ceil(count / 20))]: it is returned (no error), and the rounding
    of the binary64 division never moves the quotient across an integer.
    In particular 0 rows and 20 rows make 1 page, 21 rows make 2. *)
Theorem total_pages_exact (n : Z) :
  0 <= n < 2 ^ 53 ->
  total_pages n = Some (spec_total_pages n ROWS_PER_PAGE) /\
  total_pages 0 = Some 1 /\ total_pages 20 = Some 1 /\ total_pages 21 = Some 2.
Proof.
  intros Hn. split; [|repeat split; reflexivity].
  unfold total_pages, spec_total_pages, int_true_div, ROWS_PER_PAGE.
  change (20 =? 0) with false. cbv iota.
  destruct (Z.eqb_spec n 0) as [->|Hn0]; [reflexivity|].
  assert (Hpos : 0 < n) by lia.
  rewrite (Z.abs_eq n) by lia. change (Z.abs 20) with 20.
  pose proof (Z.log2_spec n Hpos) as Hlog.
  pose proof (Z.log2_nonneg n) as Hlog0.
  assert (Hd : Z.log2 n <= 52).
  { assert (Z.log2 n < 53); [|lia]. apply Z.log2_lt_pow2; lia. }
  set (d := Z.log2 n) in *.
  rewrite (div_core_by_20 d n) by (replace (d + 1) with (Z.succ d) by lia; lia).
  destruct (quotient_rounding (Z.to_nat d) n) as [Hq Hc]; [lia| |].
  { rewrite Z2Nat.id by lia. replace (d + 1) with (Z.succ d) by lia. exact Hlog. }
  rewrite Z2Nat.id in Hq, Hc by lia.
  destruct (binary_round_aux_quotient (xorb (n <? 0) (20 <? 0))
              (n * 2 ^ (57 - d) / 20) (d - 57)
              (new_location 20 ((n * 2 ^ (57 - d)) mod 20)) Hq)
    as (m' & e' & -> & He' & Hv); [lia|].
  destruct (Z.ltb_spec n 0); [lia|]. simpl xorb. simpl math_ceil. simpl option_map.
  destruct (Z.leb_spec 0 e'); [lia|].
  do 2 f_equal. rewrite <- Hc, <- Hv. fold (ceil_div (Z.pos m') (2 ^ (- e'))).
  replace (2 ^ (57 - d)) with (2 ^ (- e') * 2 ^ (e' - (d - 57))).
  - apply eq_sym, ceil_div_scale; apply Z.pow_pos_nonneg; lia.
  - rewrite <- Z.pow_add_r by lia. f_equal. lia.
Qed.

Lemma total_pages_exact_witness :
  total_pages 45 = Some (spec_total_pages 45 ROWS_PER_PAGE).
Proof.
  apply (total_pages_exact 45). vm_compute. split; [discriminate | reflexivity].
Defined.

(* ------------------------------------------------------------------ *)
(** * Facts about the header statistics *)

Lemma fold_max_bounds (l : list Z) (x : Z) :
  x <= fold_left Z.max l x /\ forall y, In y l -> y <= fold_left Z.max l x.
Proof.
  revert x. induction l as [|a l IH]; intro x; simpl.
  - split; [lia | intros y []].
  - destruct (IH (Z.max x a)) as [H1 H2]. split; [lia|].
    intros y [<-|Hy]; [lia | apply H2, Hy].
Qed.

Lemma fold_max_attained (l : list Z) (x : Z) :
  fold_left Z.max l x = x \/ In (fold_left Z.max l x) l.
Proof.
  revert x. induction l as [|a l IH]; intro x; simpl; [left; reflexivity|].
  destruct (IH (Z.max x a)) as [H|H]; [|right; right; exact H].
  rewrite H. destruct (Z.max_spec x a) as [[_ ->]|[_ ->]]; auto.
Qed.

Lemma column_max_none (xs : list Z) : column_max xs = None <-> xs = [].
Proof. destruct xs; simpl; split; congruence. Qed.

Lemma column_max_some (xs : list Z) (m : Z) :
  column_max xs = Some m <-> In m xs /\ forall y, In y xs -> y <= m.
Proof.
  destruct xs as [|x rest]; simpl.
  - split; [discriminate | intros [[] _]].
  - pose proof (fold_max_bounds rest x) as [Hx Hrest].
    pose proof (fold_max_attained rest x) as Hin.
    split.
    + intros [= <-]. split; [destruct Hin as [->|H]; auto|].
      intros y [<-|Hy]; auto.
    + intros [Hm Hall]. f_equal. apply Z.le_antisymm.
      * destruct Hin as [->|H]; [apply Hall; auto | apply Hall; auto].
      * destruct Hm as [<-|Hm]; auto.
Qed.

Lemma column_max_perm (xs ys : list Z) :
  Permutation xs ys -> column_max xs = column_max ys.
Proof.
  intro H. destruct (column_max xs) as [m|] eqn:E.
  - symmetry. apply column_max_some. apply column_max_some in E as [Hin Hall].
    split; [eapply Permutation_in; eassumption|].
    intros y Hy. apply Hall. eapply Permutation_in; [symmetry|]; eassumption.
  - apply column_max_none in E. subst xs. apply Permutation_nil in H. subst ys.
    reflexivity.
Qed.

Lemma wrap_int64_small (z : Z) : - 2 ^ 63 <= z < 2 ^ 63 -> wrap_int64 z = z.
Proof.
  intro H. unfold wrap_int64. rewrite Z.mod_small; lia.
Qed.

Lemma wrap_int64_add (a b : Z) : wrap_int64 (wrap_int64 a + b) = wrap_int64 (a + b).
Proof.
  unfold wrap_int64. f_equal.
  replace ((a + 2 ^ 63) mod 2 ^ 64 - 2 ^ 63 + b + 2 ^ 63)
    with ((a + 2 ^ 63) mod 2 ^ 64 + b) by lia.
  rewrite Zplus_mod_idemp_l. f_equal. lia.
Qed.

Lemma column_sum_from (xs : list Z) (a : Z) :
  fold_left (fun acc x => wrap_int64 (acc + x)) xs (wrap_int64 a)
  = wrap_int64 (a + exact_sum xs).
Proof.
  revert a. induction xs as [|x xs IH]; intro a; simpl.
  - f_equal. lia.
  - rewrite wrap_int64_add, IH. f_equal. lia.
Qed.

Lemma column_sum_exact (xs : list Z) : column_sum xs = wrap_int64 (exact_sum xs).
Proof. apply (column_sum_from xs 0). Qed.

Lemma exact_sum_perm (xs ys : list Z) :
  Permutation xs ys -> exact_sum xs = exact_sum ys.
Proof.
  induction 1; simpl; lia.
Qed.

Lemma column_sum_perm (xs ys : list Z) :
  Permutation xs ys -> column_sum xs = column_sum ys.
Proof.
  intro H. rewrite !column_sum_exact, (exact_sum_perm _ _ H). reflexivity.
Qed.

Lemma keeps_upcoming_only date r :
  keeps (upcoming_only date r) = true <-> released_after r date.
Proof. apply keeps_gt_int. Qed.

Lemma get_max_hypes_runs df w :
  get_max_hypes df w =
  (Some (column_max (get_column hypes (df_filter (upcoming_only (today w)) df))), w).
Proof. reflexivity. Qed.

Lemma in_upcoming_hypes df date m :
  In m (get_column hypes (df_filter (upcoming_only date) df)) <->
  exists r, In r df /\ released_after r date /\ hypes r = m.
Proof.
  unfold get_column. rewrite in_map_iff. split.
  - intros (r & <- & Hr). apply in_df_filter in Hr as [Hin Hk].
    exists r. rewrite <- keeps_upcoming_only. auto.
  - intros (r & Hin & Hrel & <-). exists r. split; [reflexivity|].
    apply in_df_filter. rewrite keeps_upcoming_only. auto.
Qed.

(** X3. [get_max_hypes] always returns and leaves the session alone.  Its
    result is [None] exactly when no game of the snapshot is released after
    today; otherwise it is the hype count of such a game that no other such
    game exceeds. *)
Theorem get_max_hypes_greatest (df : DataFrame) (w : World) :
  exists result,
    get_max_hypes df w = (Some result, w) /\
    (result = None <-> forall r, In r df -> ~ released_after r (today w)) /\
    (forall m, result = Some m <->
       (exists r, In r df /\ released_after r (today w) /\ hypes r = m) /\
       (forall r, In r df -> released_after r (today w) -> hypes r <= m)).
Proof.
  eexists. split; [apply get_max_hypes_runs|]. split.
  - rewrite column_max_none. split.
    + intros H r Hin Hrel.
      assert (Hm : In (hypes r) (get_column hypes (df_filter (upcoming_only (today w)) df)))
        by (apply in_upcoming_hypes; eauto).
      rewrite H in Hm. exact Hm.
    + intro H. destruct (get_column _ _) as [|m rest] eqn:E; [reflexivity|].
      assert (Hm : In m (get_column hypes (df_filter (upcoming_only (today w)) df)))
        by (rewrite E; left; reflexivity).
      apply in_upcoming_hypes in Hm as (r & Hin & Hrel & _).
      destruct (H r Hin Hrel).
  - intro m. rewrite column_max_some, in_upcoming_hypes. split.
    + intros [Hex Hall]. split; [exact Hex|].
      intros r Hin Hrel. apply Hall, in_upcoming_hypes. eauto.
    + intros [Hex Hall]. split; [exact Hex|].
      intros y Hy. apply in_upcoming_hypes in Hy as (r & Hin & Hrel & <-). auto.
Qed.

(* ------------------------------------------------------------------ *)
(** * The filters and their controls *)

Lemma compile_empty_search : Text.regex_compile (Text.lower "") = Some [].
Proof. reflexivity. Qed.

Lemma is_match_empty (s : string) : Text.is_match [] s = true.
Proof. destruct s; reflexivity. Qed.

(** X4. With an empty search text and the hype range that the slider first
    shows, from 0 to the result of [get_max_hypes], [filter_upcoming_data]
    returns exactly the games released after today whose hype count is not
    negative, whatever the sort column and order. *)
Theorem default_hype_range_keeps_upcoming (sort : sorter) (df : DataFrame)
    (w : World) (m : Z) (sort_by order : string) :
  sort_contract sort ->
  fst (get_max_hypes df w) = Some (Some m) ->
  exists out,
    filter_upcoming_data sort df "" 0 m sort_by order w = (Some out, w) /\
    forall r, In r out <-> In r df /\ released_after r (today w) /\ 0 <= hypes r.
Proof.
  intros Hs Hm. rewrite get_max_hypes_runs in Hm. simpl in Hm.
  injection Hm as Hm. apply column_max_some in Hm as [_ Hall].
  eexists. split; [apply filter_upcoming_data_runs, compile_empty_search|].
  intro r. rewrite (in_sort sort Hs), in_df_filter, upcoming_mask_keeps.
  rewrite is_match_empty. unfold hype_within. split.
  - intros (Hin & Hrel & _ & H0 & _). auto.
  - intros (Hin & Hrel & H0). repeat split; auto.
    apply Hall, in_upcoming_hypes. eauto.
Qed.

Lemma default_hype_range_keeps_upcoming_witness :
  exists out,
    filter_upcoming_data insertion_sort [halo; hades; doom] "" 0 35 "Hypes" "Descending"
      launch_day = (Some out, launch_day) /\
    forall r, In r out <->
      In r [halo; hades; doom] /\ released_after r (today launch_day) /\ 0 <= hypes r.
Proof.
  apply (default_hype_range_keeps_upcoming insertion_sort [halo; hades; doom]
           launch_day 35 "Hypes" "Descending" insertion_sort_contract).
  reflexivity.
Defined.

Lemma rating_within_wider r lo hi lo' hi' :
  lo <= lo' -> hi' <= hi -> rating_within r lo' hi' -> rating_within r lo hi.
Proof.
  intros Hlo Hhi (q & Hq & H1 & H2). exists q. split; [exact Hq|].
  rewrite Zle_Qle in Hlo, Hhi. split; eapply Qle_trans; eassumption.
Qed.

(** X5. For the same snapshot and search text, a narrower rating range and
    a higher minimum count make [filter_data] return no game that the wider
    settings did not return; the sort column, the order and the session do
    not matter. *)
Theorem tighter_filter_lists_fewer (sort : sorter) (df : DataFrame) (search : string)
    (rating_range rating_range' : Z * Z) (min_count min_count' : Z)
    (sort_by sort_by' order order' : string) (w w' : World) (out out' : DataFrame) :
  sort_contract sort ->
  fst rating_range <= fst rating_range' ->
  snd rating_range' <= snd rating_range ->
  min_count <= min_count' ->
  fst (filter_data sort df search rating_range min_count sort_by order w) = Some out ->
  fst (filter_data sort df search rating_range' min_count' sort_by' order' w')
    = Some out' ->
  forall r, In r out' -> In r out.
Proof.
  intros Hs Hlo Hhi Hc H H' r.
  apply filter_data_inv in H as (re & key & Hre & _ & ->).
  apply filter_data_inv in H' as (re' & key' & Hre' & _ & ->).
  rewrite Hre in Hre'. injection Hre' as <-.
  rewrite !(in_sort sort Hs), !in_df_filter, !popular_mask_keeps.
  intros (Hin & Hm & Hr & Hn). repeat split; auto; [|lia].
  eapply rating_within_wider; eassumption.
Qed.

Lemma tighter_filter_lists_fewer_witness :
  fst (filter_data insertion_sort [halo; hades; doom] "" (0, 100) 0 "rating" "ASC"
         first_visit) = Some [halo; doom] /\
  forall r, In r [doom] -> In r [halo; doom].
Proof.
  split; [reflexivity|].
  apply (tighter_filter_lists_fewer insertion_sort [halo; hades; doom] ""
           (0, 100) (88, 100) 0 500 "rating" "rating" "ASC" "ASC"
           first_visit first_visit [halo; doom] [doom] insertion_sort_contract);
    [simpl; lia | simpl; lia | lia | reflexivity | reflexivity].
Defined.

(** X6. For the same snapshot and search text, [filter_upcoming_data] on a
    later day and with a narrower hype range returns no game that it did not
    return on the earlier day with the wider range. *)
Theorem upcoming_list_only_shrinks (sort : sorter) (df : DataFrame) (search : string)
    (min_hypes max_hypes min_hypes' max_hypes' : Z)
    (sort_by sort_by' order order' : string) (w w' : World) (out out' : DataFrame) :
  sort_contract sort ->
  today w <= today w' ->
  min_hypes <= min_hypes' ->
  max_hypes' <= max_hypes ->
  fst (filter_upcoming_data sort df search min_hypes max_hypes sort_by order w)
    = Some out ->
  fst (filter_upcoming_data sort df search min_hypes' max_hypes' sort_by' order' w')
    = Some out' ->
  forall r, In r out' -> In r out.
Proof.
  intros Hs Hd Hlo Hhi H H' r.
  apply filter_upcoming_data_inv in H as (re & Hre & ->).
  apply filter_upcoming_data_inv in H' as (re' & Hre' & ->).
  rewrite Hre in Hre'. injection Hre' as <-.
  rewrite !(in_sort sort Hs), !in_df_filter, !upcoming_mask_keeps.
  unfold released_after, hype_within.
  intros (Hin & Hrel & Hm & Hh). repeat split; auto; lia.
Qed.

Lemma upcoming_list_only_shrinks_witness :
  fst (filter_upcoming_data insertion_sort [halo; hades; doom] "" 0 50
         "Hypes" "Descending" launch_day) = Some [hades] /\
  forall r, In r [hades] -> In r [hades].
Proof.
  split; [reflexivity|].
  apply (upcoming_list_only_shrinks insertion_sort [halo; hades; doom] ""
           0 50 10 40 "Hypes" "Release Date" "Descending" "Ascending"
           launch_day (on_day 20050 launch_day) [hades] [hades]
           insertion_sort_contract);
    [simpl; lia | lia | lia | reflexivity | reflexivity].
Defined.

Lemma filter_all {A} (f : A -> bool) (l : list A) :
  (forall x, In x l -> f x = true) -> filter f l = l.
Proof.
  induction l as [|a l IH]; intro H; simpl; [reflexivity|].
  rewrite (H a) by (left; reflexivity). f_equal. apply IH.
  intros x Hx. apply H. right. exact Hx.
Qed.

(** X7. Either filter applied to its own output with the same settings (and,
    for the upcoming one, on the same day) returns and keeps every row: the
    second output is a rearrangement of the first. *)
Theorem filtering_again_keeps_all (sort : sorter) (df : DataFrame) (search : string)
    (w w' : World) (out : DataFrame) :
  sort_contract sort ->
  (forall rating_range min_count sort_by order,
      fst (filter_data sort df search rating_range min_count sort_by order w)
        = Some out ->
      exists again,
        filter_data sort out search rating_range min_count sort_by order w'
          = (Some again, w') /\
        Permutation out again) /\
  (forall min_hypes max_hypes sort_by order,
      today w' = today w ->
      fst (filter_upcoming_data sort df search min_hypes max_hypes sort_by order w)
        = Some out ->
      exists again,
        filter_upcoming_data sort out search min_hypes max_hypes sort_by order w'
          = (Some again, w') /\
        Permutation out again).
Proof.
  intro Hs. split.
  - intros rating_range min_count sort_by order H.
    apply filter_data_inv in H as (re & key & Hre & Hk & Hout).
    eexists. split; [apply filter_data_runs; eassumption|].
    unfold df_filter at 1. rewrite filter_all; [apply (sort_perm _ Hs)|].
    intros r Hr. rewrite Hout in Hr.
    apply (in_sort sort Hs), in_df_filter in Hr. apply Hr.
  - intros min_hypes max_hypes sort_by order Hday H.
    apply filter_upcoming_data_inv in H as (re & Hre & Hout).
    eexists. split; [apply filter_upcoming_data_runs; eassumption|].
    unfold df_filter at 1. rewrite filter_all; [apply (sort_perm _ Hs)|].
    intros r Hr. rewrite Hout in Hr.
    apply (in_sort sort Hs), in_df_filter in Hr. rewrite Hday. apply Hr.
Qed.

Lemma filtering_again_keeps_all_witness :
  (exists again,
     filter_data insertion_sort [halo; doom] "" (0, 100) 0 "rating" "ASC" on_page_3
       = (Some again, on_page_3) /\
     Permutation [halo; doom] again) /\
  (exists again,
     filter_upcoming_data insertion_sort [hades] "" 0 50 "Hypes" "Descending"
       (on_day 20000 on_page_3) = (Some again, on_day 20000 on_page_3) /\
     Permutation [hades] again).
Proof.
  split.
  - apply (proj1 (filtering_again_keeps_all insertion_sort [halo; hades; doom] ""
                    first_visit on_page_3 [halo; doom] insertion_sort_contract)
             (0, 100) 0 "rating" "ASC").
    reflexivity.
  - apply (proj2 (filtering_again_keeps_all insertion_sort [halo; hades; doom] ""
                    launch_day (on_day 20000 on_page_3) [hades]
                    insertion_sort_contract)
             0 50 "Hypes" "Descending"); reflexivity.
Defined.

(** Filtering cannot bring two rows with the same id together. *)
Lemma distinct_ids_df_filter (pred : GameRecord -> mask) (df : DataFrame) :
  NoDup (map id df) -> NoDup (map id (df_filter pred df)).
Proof.
  unfold df_filter. induction df as [|r df IH]; simpl; intro Hids; [constructor|].
  apply NoDup_cons_iff in Hids as [Hfresh Hrest].
  destruct (keeps (pred r)); simpl; [|exact (IH Hrest)].
  constructor; [|exact (IH Hrest)].
  intro Hin. apply Hfresh. apply in_map_iff in Hin as (r' & Hid & Hin).
  apply filter_In in Hin as [Hin _]. rewrite <- Hid. apply in_map, Hin.
Qed.

Lemma sorted_filter_facts (sort : sorter) key descending pred (df : DataFrame) :
  sort_contract sort ->
  let out := sort key descending (df_filter pred df) in
  (NoDup (map id df) -> NoDup (map id out)) /\
  Z.of_nat (List.length out) <= get_games_number df.
Proof.
  intros Hs out. pose proof (sort_perm _ Hs key descending (df_filter pred df)) as Hp.
  fold out in Hp. split.
  - intro Hn. eapply Permutation_NoDup; [apply Permutation_map, Hp|].
    apply distinct_ids_df_filter, Hn.
  - unfold get_games_number, get_column. rewrite length_map.
    rewrite <- (Permutation_length Hp). unfold df_filter.
    pose proof (filter_length_le (fun r => keeps (pred r)) df). lia.
Qed.

(** X8. Neither filter repeats a game: when the ids of the snapshot are
    distinct, so are those of the output; and the output never has more rows
    than [get_games_number] reports for the snapshot. *)
Theorem filters_list_each_game_once (sort : sorter) (df : DataFrame) (search : string)
    (w : World) (out : DataFrame) :
  sort_contract sort ->
  (forall rating_range min_count sort_by order,
      fst (filter_data sort df search rating_range min_count sort_by order w)
        = Some out ->
      (NoDup (map id df) -> NoDup (map id out)) /\
      Z.of_nat (List.length out) <= get_games_number df) /\
  (forall min_hypes max_hypes sort_by order,
      fst (filter_upcoming_data sort df search min_hypes max_hypes sort_by order w)
        = Some out ->
      (NoDup (map id df) -> NoDup (map id out)) /\
      Z.of_nat (List.length out) <= get_games_number df).
Proof.
  intro Hs. split.
  - intros rating_range min_count sort_by order H.
    apply filter_data_inv in H as (re & key & _ & _ & ->).
    apply sorted_filter_facts, Hs.
  - intros min_hypes max_hypes sort_by order H.
    apply filter_upcoming_data_inv in H as (re & _ & ->).
    apply sorted_filter_facts, Hs.
Qed.

Lemma filters_list_each_game_once_witness :
  (forall rating_range min_count sort_by order,
      fst (filter_data insertion_sort [halo; hades; doom] "" rating_range min_count
             sort_by order first_visit) = Some [halo; doom] ->
      (NoDup (map id [halo; hades; doom]) -> NoDup (map id [halo; doom])) /\
      Z.of_nat (List.length [halo; doom]) <= get_games_number [halo; hades; doom]) /\
  (forall min_hypes max_hypes sort_by order,
      fst (filter_upcoming_data insertion_sort [halo; hades; doom] "" min_hypes
             max_hypes sort_by order first_visit) = Some [halo; doom] ->
      (NoDup (map id [halo; hades; doom]) -> NoDup (map id [halo; doom])) /\
      Z.of_nat (List.length [halo; doom]) <= get_games_number [halo; hades; doom]).
Proof.
  apply (filters_list_each_game_once insertion_sort [halo; hades; doom] ""
           first_visit [halo; doom] insertion_sort_contract).
Defined.

(* ------------------------------------------------------------------ *)
(** * The header and the lists *)

Lemma df_filter_perm (pred : GameRecord -> mask) (df df' : DataFrame) :
  Permutation df df' -> Permutation (df_filter pred df) (df_filter pred df').
Proof.
  unfold df_filter.
  induction 1 as [|r df df' _ IH|r1 r2 df|df df' df'' _ IH1 _ IH2]; simpl.
  - constructor.
  - destruct (keeps (pred r)); [constructor|]; exact IH.
  - destruct (keeps (pred r1)), (keeps (pred r2)); try reflexivity. constructor.
  - etransitivity; eassumption.
Qed.

(** X9. The four figures computed from the whole snapshot, the number of
    games, the number of ratings, the greatest hype and the time of the last
    update, do not depend on the order of its rows. *)
Theorem header_ignores_row_order (datetime_strftime : Z -> string -> string)
    (df df' : DataFrame) (w : World) :
  Permutation df df' ->
  get_games_number df = get_games_number df' /\
  get_ratings_count df = get_ratings_count df' /\
  get_max_hypes df w = get_max_hypes df' w /\
  format_last_update datetime_strftime df = format_last_update datetime_strftime df'.
Proof.
  intro H. repeat split.
  - unfold get_games_number, get_column. rewrite !length_map.
    rewrite (Permutation_length H). reflexivity.
  - apply column_sum_perm, Permutation_map, H.
  - rewrite !get_max_hypes_runs. do 2 f_equal.
    apply column_max_perm, Permutation_map, df_filter_perm, H.
  - unfold format_last_update, get_column.
    rewrite (column_max_perm _ _ (Permutation_map dlt_load_timestamp H)).
    reflexivity.
Qed.

Lemma header_ignores_row_order_witness :
  get_games_number [halo; hades] = get_games_number [hades; halo] /\
  get_ratings_count [halo; hades] = get_ratings_count [hades; halo] /\
  get_max_hypes [halo; hades] launch_day = get_max_hypes [hades; halo] launch_day /\
  format_last_update show_nothing [halo; hades]
    = format_last_update show_nothing [hades; halo].
Proof.
  apply (header_ignores_row_order show_nothing [halo; hades] [hades; halo] launch_day).
  apply perm_swap.
Defined.

Lemma exact_sum_filter_le {A} (f : A -> Z) (p : A -> bool) (l : list A) :
  (forall x, In x l -> 0 <= f x) ->
  0 <= exact_sum (map f (filter p l)) <= exact_sum (map f l).
Proof.
  induction l as [|a l IH]; intro H; simpl.
  - lia.
  - assert (0 <= f a) by (apply H; left; reflexivity).
    assert (IH' := IH (fun x Hx => H x (or_intror Hx))).
    destruct (p a); simpl; lia.
Qed.

(** X10. When no rating count of the snapshot is negative and they add up
    to less than 2^63, the ratings of the games that [filter_data] returns
    add up to a number between 0 and the "number of user ratings" of the
    header. *)
Theorem listed_ratings_within_header (sort : sorter) (df : DataFrame) (search : string)
    (rating_range : Z * Z) (min_count : Z) (sort_by order : string) (w : World)
    (out : DataFrame) :
  sort_contract sort ->
  (forall r, In r df -> 0 <= rating_count r) ->
  exact_sum (get_column rating_count df) < 2 ^ 63 ->
  fst (filter_data sort df search rating_range min_count sort_by order w) = Some out ->
  0 <= get_ratings_count out <= get_ratings_count df.
Proof.
  intros Hs Hpos Hfit H.
  apply filter_data_inv in H as (re & key & _ & _ & ->).
  unfold get_ratings_count, get_column in *.
  rewrite <- (column_sum_perm _ _
                (Permutation_map rating_count (sort_perm _ Hs key _ _))).
  pose proof (exact_sum_filter_le rating_count
                (fun r => keeps (popular_mask re rating_range min_count r)) df Hpos)
    as Hle.
  fold (df_filter (popular_mask re rating_range min_count) df) in Hle.
  rewrite !column_sum_exact, !wrap_int64_small by lia. exact Hle.
Qed.

Lemma listed_ratings_within_header_witness :
  exact_sum (get_column rating_count [halo; hades; doom]) = 2000 /\
  0 <= get_ratings_count [halo; doom] <= get_ratings_count [halo; hades; doom].
Proof.
  split; [reflexivity|].
  apply (listed_ratings_within_header insertion_sort [halo; hades; doom] ""
           (0, 100) 0 "rating" "ASC" first_visit [halo; doom] insertion_sort_contract);
    [intros r [<-|[<-|[<-|[]]]]; simpl; lia | reflexivity | reflexivity].
Defined.

(** X11. [format_last_update] fails exactly on a snapshot without rows.
    Otherwise it formats, with ["%Y-%m-%d %H:%M UTC"], the load timestamp of
    a row that no other row's timestamp exceeds. *)
Theorem format_last_update_latest (datetime_strftime : Z -> string -> string)
    (df : DataFrame) :
  (format_last_update datetime_strftime df = None <-> df = []) /\
  (forall shown, format_last_update datetime_strftime df = Some shown ->
     exists r, In r df /\
       shown = datetime_strftime (dlt_load_timestamp r) "%Y-%m-%d %H:%M UTC" /\
       forall r', In r' df -> dlt_load_timestamp r' <= dlt_load_timestamp r).
Proof.
  unfold format_last_update. split.
  - destruct (column_max _) as [t|] eqn:E.
    + split; [discriminate|]. intros ->. discriminate.
    + apply column_max_none in E. split; [|reflexivity]. intros _.
      destruct df; [reflexivity | discriminate].
  - intros shown H. destruct (column_max _) as [t|] eqn:E; [|discriminate].
    injection H as <-. apply column_max_some in E as [Hin Hall].
    apply in_map_iff in Hin as (r & <- & Hin). exists r. repeat split; auto.
    intros r' Hr'. apply Hall, in_map, Hr'.
Qed.

(* ------------------------------------------------------------------ *)
(** * The grid of cards *)

Lemma collect_some {A} (l : list (option A)) (l' : list A) :
  collect l = Some l' <-> l = map Some l'.
Proof.
  revert l'. induction l as [|o l IH]; intro l'; simpl.
  - split; [intros [= <-]; reflexivity | destruct l'; [reflexivity | discriminate]].
  - destruct o as [a|]; simpl.
    + destruct (collect l) as [rest|] eqn:E; simpl.
      * split.
        -- intros [= <-]. simpl. f_equal. apply IH. reflexivity.
        -- destruct l' as [|b l']; [discriminate|]. simpl. intros [= -> Hl].
           apply IH in Hl. congruence.
      * split; [discriminate|].
        destruct l' as [|b l']; [discriminate|]. simpl. intros [= _ Hl].
        apply IH in Hl. discriminate.
    + split; [discriminate | destruct l'; discriminate].
Qed.

Lemma collect_none {A} (l : list (option A)) : collect l = None <-> In None l.
Proof.
  induction l as [|o l IH]; simpl.
  - split; [discriminate | intros []].
  - destruct o as [a|]; simpl.
    + destruct (collect l) as [rest|]; simpl.
      * split; [discriminate|]. intros [H|H]; [discriminate|].
        apply IH in H. discriminate.
      * split; [|reflexivity]. intros _. right. apply IH. reflexivity.
    + split; [auto | reflexivity].
Qed.

Lemma collect_map_some {A B} (g : A -> B) (l : list A) :
  collect (map (fun x => Some (g x)) l) = Some (map g l).
Proof. apply collect_some. rewrite map_map. reflexivity. Qed.

Lemma render_cell_value {C} (card : list value -> option C) (page_df : DataFrame) i j :
  render_cell card page_df i j =
  match nth_error page_df (i * col_count + j) with
  | Some r => option_map Some (card (row_of r))
  | None => Some None
  end.
Proof.
  unfold render_cell, df_row.
  destruct (Nat.ltb_spec (i * col_count + j) (List.length page_df)) as [H|H].
  - apply nth_error_Some in H.
    destruct (nth_error page_df (i * col_count + j)) as [r|]; [|congruence].
    simpl. destruct (card (row_of r)); reflexivity.
  - apply nth_error_None in H. rewrite H. reflexivity.
Qed.

Lemma cards_by_index {C} (card : list value -> option C) (page_df : DataFrame)
    (cards : list C) (idx : nat) :
  collect (map (fun r => card (row_of r)) page_df) = Some cards ->
  match nth_error page_df idx with
  | Some r => option_map Some (card (row_of r))
  | None => Some None
  end = Some (nth_error cards idx).
Proof.
  intro H. apply collect_some in H.
  assert (Hn : nth_error (map (fun r => card (row_of r)) page_df) idx =
               nth_error (map Some cards) idx) by (rewrite H; reflexivity).
  rewrite !nth_error_map in Hn.
  destruct (nth_error page_df idx) as [r|], (nth_error cards idx) as [c|];
    simpl in *; try discriminate; [|reflexivity].
  injection Hn as ->. reflexivity.
Qed.

(** When every card can be drawn, the grid is the table of the cards by
    index. *)
Lemma render_grid_explicit {C} (card : list value -> option C) (page_df : DataFrame)
    (cards : list C) :
  collect (map (fun r => card (row_of r)) page_df) = Some cards ->
  render_grid card page_df =
  Some (map (fun i => map (fun j => nth_error cards (i * col_count + j)%nat)
                        (seq 0 col_count))
          (seq 0 (grid_rows (List.length page_df)))).
Proof.
  intro H. unfold render_grid, render_row.
  rewrite <- collect_map_some. f_equal. apply map_ext. intro i.
  rewrite <- collect_map_some. f_equal. apply map_ext. intro j.
  rewrite render_cell_value. apply cards_by_index, H.
Qed.

Lemma grid_rows_cover (n : nat) :
  (n <= grid_rows n * col_count < n + col_count)%nat.
Proof.
  unfold grid_rows, col_count.
  pose proof (Nat.div_mod_eq n 4). pose proof (Nat.mod_upper_bound n 4).
  destruct (Nat.eqb_spec (n mod 4) 0); lia.
Qed.

(** When a card cannot be drawn, the loop stops there. *)
Lemma render_grid_fails {C} (card : list value -> option C) (page_df : DataFrame) :
  collect (map (fun r => card (row_of r)) page_df) = None ->
  render_grid card page_df = None.
Proof.
  intro H. apply collect_none, in_map_iff in H as (r & Hr & Hin).
  apply In_nth_error in Hin as [idx Hidx].
  assert (Hlt : (idx < List.length page_df)%nat)
    by (apply nth_error_Some; congruence).
  pose proof (grid_rows_cover (List.length page_df)) as Hrows.
  pose proof (Nat.div_mod_eq idx 4) as Hdm.
  pose proof (Nat.mod_upper_bound idx 4) as Hmod.
  unfold render_grid. apply collect_none, in_map_iff.
  exists (idx / 4)%nat. split.
  - unfold render_row. apply collect_none, in_map_iff.
    exists (idx mod 4)%nat. split.
    + rewrite render_cell_value. unfold col_count.
      replace (idx / 4 * 4 + idx mod 4)%nat with idx by lia.
      rewrite Hidx, Hr. reflexivity.
    + apply in_seq. unfold col_count. lia.
  - apply in_seq. unfold col_count in Hrows. nia.
Qed.

Lemma flat_map_map {A B C} (g : A -> B) (f : B -> list C) (l : list A) :
  flat_map f (map g l) = flat_map (fun x => f (g x)) l.
Proof. induction l; simpl; congruence. Qed.

Lemma take_by_index {A} (k : nat) : forall l : list A,
  flat_map (fun j => slot_cards (nth_error l j)) (seq 0 k) = firstn k l.
Proof.
  induction k as [|k IH]; intro l; [reflexivity|].
  cbn [seq]. rewrite <- seq_shift. cbn [flat_map]. rewrite flat_map_map.
  destruct l as [|x l]; simpl.
  - clear IH. induction (seq 0 k); simpl; auto.
  - f_equal. apply IH.
Qed.

Lemma chunks_cover {A} (k rows : nat) : forall l : list A,
  (List.length l <= rows * k)%nat ->
  flat_map (fun i => firstn k (skipn (i * k) l)) (seq 0 rows) = l.
Proof.
  induction rows as [|rows IH]; intros l H.
  - destruct l; [reflexivity | simpl in H; lia].
  - cbn [seq]. rewrite <- seq_shift. cbn [flat_map]. rewrite flat_map_map.
    simpl skipn at 1.
    rewrite (flat_map_ext _ (fun i => firstn k (skipn (i * k) (skipn k l)))).
    + rewrite IH by (rewrite length_skipn; lia). apply firstn_skipn.
    + intro i. rewrite skipn_skipn. do 2 f_equal. lia.
Qed.

Lemma table_cards {C} (cards : list C) (rows : nat) :
  (List.length cards <= rows * col_count)%nat ->
  grid_cards (map (fun i => map (fun j => nth_error cards (i * col_count + j)%nat)
                             (seq 0 col_count))
                (seq 0 rows)) = cards.
Proof.
  intro H. unfold grid_cards. rewrite flat_map_map.
  rewrite (flat_map_ext _ (fun i => firstn col_count (skipn (i * col_count) cards))).
  - apply chunks_cover, H.
  - intro i. rewrite flat_map_map.
    rewrite (flat_map_ext _ (fun j => slot_cards (nth_error (skipn (i * col_count) cards) j))).
    + apply take_by_index.
    + intro j. rewrite nth_error_skipn. reflexivity.
Qed.

Lemma collect_length {A} (l : list (option A)) (l' : list A) :
  collect l = Some l' -> List.length l' = List.length l.
Proof. intro H. apply collect_some in H. subst l. symmetry. apply length_map. Qed.

(** X12. The grid loop draws each row of the page once, in row order, and
    nothing else: read row by row and left to right, the cards of the grid
    are the cards of the rows of the page; and the loop fails exactly when
    the card of some row of the page cannot be drawn. *)
Theorem render_grid_cards {C} (card : list value -> option C) (page_df : DataFrame) :
  option_map grid_cards (render_grid card page_df) =
  collect (map (fun r => card (row_of r)) page_df).
Proof.
  destruct (collect (map (fun r => card (row_of r)) page_df)) as [cards|] eqn:E.
  - rewrite (render_grid_explicit card page_df cards E). simpl. f_equal.
    apply table_cards. apply collect_length in E. rewrite length_map in E.
    rewrite E. apply grid_rows_cover.
  - rewrite (render_grid_fails card page_df E). reflexivity.
Qed.

Lemma render_grid_table {C} (card : list value -> option C) (page_df : DataFrame)
    (grid : list (list (option C))) :
  render_grid card page_df = Some grid ->
  exists cards,
    List.length cards = List.length page_df /\
    collect (map (fun r => card (row_of r)) page_df) = Some cards /\
    grid = map (fun i => map (fun j => nth_error cards (i * col_count + j)%nat)
                           (seq 0 col_count))
             (seq 0 (grid_rows (List.length page_df))).
Proof.
  intro H. destruct (collect (map (fun r => card (row_of r)) page_df)) as [cards|] eqn:E.
  - exists cards. split; [|split; [reflexivity|]].
    + apply collect_length in E. rewrite length_map in E. exact E.
    + rewrite (render_grid_explicit card page_df cards E) in H. congruence.
  - rewrite (render_grid_fails card page_df E) in H. discriminate.
Qed.

(** X13. A grid that was drawn for a page of [n] rows has
    [n // 4 + int(n % 4 != 0)] rows of four columns each, just enough to
    hold [n] cards.  Every row starts with a card; its cards stand on the
    left and only the last row can have empty columns. *)
Theorem render_grid_shape {C} (card : list value -> option C) (page_df : DataFrame)
    (grid : list (list (option C))) :
  render_grid card page_df = Some grid ->
  let n := List.length page_df in
  List.length grid = grid_rows n /\
  (n <= List.length grid * col_count < n + col_count)%nat /\
  forall i row, nth_error grid i = Some row ->
    (i * col_count < n)%nat /\
    filled_to (Nat.min col_count (n - i * col_count)) row.
Proof.
  intros H n. apply render_grid_table in H as (cards & Hlen & _ & ->).
  fold n in Hlen |- *.
  assert (Hrows : List.length
            (map (fun i => map (fun j => nth_error cards (i * col_count + j)%nat)
                             (seq 0 col_count)) (seq 0 (grid_rows n))) = grid_rows n)
    by (rewrite length_map, length_seq; reflexivity).
  pose proof (grid_rows_cover n) as Hcover.
  split; [exact Hrows|]. split; [rewrite Hrows; exact Hcover|].
  intros i row Hrow. rewrite nth_error_map, nth_error_seq in Hrow.
  destruct (Nat.ltb_spec i (grid_rows n)) as [Hi|Hi]; [|discriminate].
  cbn [option_map Nat.add] in Hrow. injection Hrow as <-.
  unfold col_count in *. split; [nia|]. split; [reflexivity|].
  intros j Hj. unfold col_count in *.
  assert (Hcell : nth_error
            (map (fun j => nth_error cards (i * 4 + j)%nat) (seq 0 4)) j
            = Some (nth_error cards (i * 4 + j)%nat)).
  { rewrite nth_error_map, nth_error_seq.
    destruct (Nat.ltb_spec j 4); [reflexivity | lia]. }
  split.
  - intro Hk. assert (Hidx : (i * 4 + j < List.length cards)%nat) by lia.
    apply nth_error_Some in Hidx.
    destruct (nth_error cards (i * 4 + j)) as [c|] eqn:E; [|congruence].
    exists c. etransitivity; [exact Hcell | reflexivity].
  - intros [c Hc].
    assert (E : nth_error cards (i * 4 + j) = Some c).
    { assert (Some (nth_error cards (i * 4 + j)%nat) = Some (Some c)) as [= E];
        [etransitivity; [symmetry; exact Hcell | exact Hc] | exact E]. }
    assert (Hidx : (i * 4 + j < List.length cards)%nat)
      by (apply nth_error_Some; congruence).
    lia.
Qed.

Lemma render_grid_shape_witness :
  exists grid,
    render_grid (upcoming_card show_nothing show_nothing)
      [halo; hades; doom; quake; halo] = Some grid /\
    (List.length grid = grid_rows 5 /\
     (5 <= List.length grid * col_count < 5 + col_count)%nat /\
     forall i row, nth_error grid i = Some row ->
       (i * col_count < 5)%nat /\
       filled_to (Nat.min col_count (5 - i * col_count)) row).
Proof.
  eexists. split; [reflexivity|].
  apply (render_grid_shape (upcoming_card show_nothing show_nothing)
           [halo; hades; doom; quake; halo]).
  reflexivity.
Defined.

Lemma in_firstn {A} (n : nat) (l : list A) (x : A) : In x (firstn n l) -> In x l.
Proof.
  intro H. rewrite <- (firstn_skipn n l). apply in_or_app. left. exact H.
Qed.

Lemma in_skipn {A} (n : nat) (l : list A) (x : A) : In x (skipn n l) -> In x l.
Proof.
  intro H. rewrite <- (firstn_skipn n l). apply in_or_app. right. exact H.
Qed.

Lemma in_paginate (df : DataFrame) (page : Z) (rows : nat) (r : GameRecord) :
  In r (paginate df page rows) -> In r df.
Proof.
  unfold paginate, slice. intro H. eapply in_skipn, in_firstn, H.
Qed.

Lemma collect_forall2 {A B} (f : A -> option B) (l : list A) (l' : list B) :
  collect (map f l) = Some l' -> Forall2 (fun x y => f x = Some y) l l'.
Proof.
  intro H. apply collect_some in H. revert l' H.
  induction l as [|a l IH]; intros [|b l'] H; try discriminate; simpl in H.
  - constructor.
  - injection H as Ha Hl. constructor; auto.
Qed.

Lemma collect_total {A B} (f : A -> option B) (l : list A) :
  (forall x, In x l -> f x <> None) -> exists l', collect (map f l) = Some l'.
Proof.
  intro H. destruct (collect (map f l)) as [l'|] eqn:E; [eauto|].
  apply collect_none, in_map_iff in E as (x & Hx & Hin).
  destruct (H x Hin Hx).
Qed.

Section Cards.

Variable format_float : Q -> string -> string.
Variable date_strftime : Z -> string -> string.
Variable datetime_strftime : Z -> string -> string.

Lemma popular_card_of_row (r : GameRecord) :
  popular_card format_float date_strftime datetime_strftime (row_of r) =
  option_map (fun q => popular_card_of format_float q r) (rating r).
Proof. unfold popular_card, row_of. destruct (rating r); reflexivity. Qed.

Lemma upcoming_card_of_row (r : GameRecord) :
  upcoming_card date_strftime datetime_strftime (row_of r) =
  Some (upcoming_card_of date_strftime r).
Proof. reflexivity. Qed.

Lemma grid_rows_of_page (df : DataFrame) (page : Z) :
  (grid_rows (List.length (paginate df page (Z.to_nat ROWS_PER_PAGE))) <= 5)%nat.
Proof.
  pose proof (slice_length ((page - 1) * Z.of_nat (Z.to_nat ROWS_PER_PAGE))
                (Z.to_nat ROWS_PER_PAGE) df) as Hlen.
  fold (paginate df page (Z.to_nat ROWS_PER_PAGE)) in Hlen.
  change (Z.to_nat ROWS_PER_PAGE) with 20%nat in *.
  pose proof (grid_rows_cover (List.length (paginate df page 20))) as H.
  unfold col_count in H. lia.
Qed.

(** X14. Whenever the popular view yields a page, its grid is drawn as well:
    formatting the rating with [.1f] never meets a null, because
    [filter_data] has dropped the games without a rating.  The grid shows
    one card per game of the page, in order, each with the rating of that
    game, in at most 5 rows. *)
Theorem popular_screen_draws (sort : sorter) (full_df : DataFrame)
    (c : PopularControls) (pressed : option button) (w w' : World) (pg : Page) :
  sort_contract sort ->
  popular_view sort full_df c pressed w = (Some pg, w') ->
  exists grid,
    popular_screen format_float date_strftime datetime_strftime sort full_df c pressed w
      = (Some (pg, grid), w') /\
    Forall2 (fun r card => exists q, rating r = Some q /\
                                     card = popular_card_of format_float q r)
      (cards pg) (grid_cards grid) /\
    (List.length grid <= 5)%nat.
Proof.
  intros Hs Hview.
  destruct (popular_view_cases sort full_df c pressed w)
    as [Hnone | (out & pages & Hout & _ & Hsome)]; [congruence|].
  cbv zeta in Hsome. rewrite Hsome in Hview. injection Hview as <- <-.
  set (p := page_after _ _ _ _) in *.
  set (page_df := paginate out p (Z.to_nat ROWS_PER_PAGE)).
  apply filter_data_inv in Hout as (re & key & _ & _ & Hout).
  assert (Hrated : forall r, In r page_df ->
            popular_card format_float date_strftime datetime_strftime (row_of r)
            <> None).
  { intros r Hr. apply in_paginate in Hr. rewrite Hout in Hr.
    apply (in_sort sort Hs), in_df_filter in Hr as [_ Hk].
    apply popular_mask_keeps in Hk as (_ & (q & Hq & _) & _).
    rewrite popular_card_of_row, Hq. discriminate. }
  apply collect_total in Hrated as [shown Hshown].
  pose proof (render_grid_explicit _ page_df shown Hshown) as Hgrid.
  eexists. split; [|split].
  - unfold popular_screen, bind. rewrite Hsome. cbn [cards]. fold page_df.
    rewrite Hgrid. reflexivity.
  - cbn [cards]. fold page_df. rewrite table_cards.
    + apply collect_forall2 in Hshown.
      eapply Forall2_impl; [|exact Hshown]. intros r card Hcard. cbv beta in Hcard.
      rewrite popular_card_of_row in Hcard.
      destruct (rating r) as [q|]; [|discriminate].
      injection Hcard as <-. eauto.
    + apply collect_length in Hshown. rewrite length_map in Hshown.
      rewrite Hshown. apply grid_rows_cover.
  - rewrite length_map, length_seq. apply grid_rows_of_page.
Qed.

(** X15. Whenever the upcoming view yields a page, its grid is drawn as
    well: one card per game of the page, in order, with the release date
    formatted by ["%b %d, %Y"], in at most 5 rows. *)
Theorem upcoming_screen_draws (sort : sorter) (full_df : DataFrame)
    (c : UpcomingControls) (pressed : option button) (w w' : World) (pg : Page) :
  upcoming_view sort full_df c pressed w = (Some pg, w') ->
  exists grid,
    upcoming_screen date_strftime datetime_strftime sort full_df c pressed w
      = (Some (pg, grid), w') /\
    grid_cards grid = map (upcoming_card_of date_strftime) (cards pg) /\
    (List.length grid <= 5)%nat.
Proof.
  intros Hview.
  destruct (upcoming_view_cases sort full_df c pressed w)
    as [Hnone | (out & pages & _ & _ & Hsome)]; [congruence|].
  cbv zeta in Hsome. rewrite Hsome in Hview. injection Hview as <- <-.
  set (p := page_after _ _ _ _) in *.
  set (page_df := paginate out p (Z.to_nat ROWS_PER_PAGE)).
  assert (Hshown : collect (map (fun r => upcoming_card date_strftime datetime_strftime
                                            (row_of r)) page_df)
                   = Some (map (upcoming_card_of date_strftime) page_df))
    by apply collect_map_some.
  pose proof (render_grid_explicit _ page_df _ Hshown) as Hgrid.
  eexists. split; [|split].
  - unfold upcoming_screen, bind. rewrite Hsome. cbn [cards]. fold page_df.
    rewrite Hgrid. reflexivity.
  - cbn [cards]. fold page_df. apply table_cards.
    rewrite length_map. apply grid_rows_cover.
  - rewrite length_map, length_seq. apply grid_rows_of_page.
Qed.

End Cards.

Lemma popular_screen_draws_witness :
  exists pg w',
    popular_view insertion_sort [halo; hades; doom] initial_popular None first_visit
      = (Some pg, w') /\
    exists grid,
      popular_screen show_nothing show_nothing show_nothing insertion_sort
        [halo; hades; doom] initial_popular None first_visit = (Some (pg, grid), w') /\
      Forall2 (fun r card => exists q, rating r = Some q /\
                                       card = popular_card_of show_nothing q r)
        (cards pg) (grid_cards grid) /\
      (List.length grid <= 5)%nat.
Proof.
  do 2 eexists. split; [vm_compute; reflexivity|].
  apply (popular_screen_draws show_nothing show_nothing show_nothing insertion_sort
           [halo; hades; doom] initial_popular None first_visit _ _
           insertion_sort_contract).
  reflexivity.
Defined.

Lemma upcoming_screen_draws_witness :
  exists pg w',
    upcoming_view insertion_sort [halo; hades; doom] initial_upcoming None launch_day
      = (Some pg, w') /\
    exists grid,
      upcoming_screen show_nothing show_nothing insertion_sort
        [halo; hades; doom] initial_upcoming None launch_day = (Some (pg, grid), w') /\
      grid_cards grid = map (upcoming_card_of show_nothing) (cards pg) /\
      (List.length grid <= 5)%nat.
Proof.
  do 2 eexists. split; [vm_compute; reflexivity|].
  apply (upcoming_screen_draws show_nothing show_nothing insertion_sort
           [halo; hades; doom] initial_upcoming None launch_day).
  reflexivity.
Defined.

(* ------------------------------------------------------------------ *)
(** * The pages of a result *)

(** The page count of a frame, from the rounding lemmas of the division. *)
Lemma total_pages_of_count (n : Z) :
  0 <= n < 2 ^ 53 -> total_pages n = Some (Z.max 1 (ceil_div n 20)).
Proof.
  intros Hn. unfold total_pages, int_true_div, ROWS_PER_PAGE.
  change (20 =? 0) with false. cbv iota.
  destruct (Z.eqb_spec n 0) as [->|Hn0]; [reflexivity|].
  rewrite (Z.abs_eq n) by lia. change (Z.abs 20) with 20.
  assert (Hpos : 0 < n) by lia.
  pose proof (Z.log2_spec n Hpos) as Hlog.
  pose proof (Z.log2_nonneg n) as Hlog0.
  assert (Hd : Z.log2 n < 53) by (apply Z.log2_lt_pow2; lia).
  set (d := Z.log2 n) in *. replace (Z.succ d) with (d + 1) in Hlog by lia.
  rewrite (div_core_by_20 d n) by lia.
  destruct (quotient_rounding (Z.to_nat d) n) as [Hq Hc];
    [lia | rewrite Z2Nat.id by lia; exact Hlog |].
  rewrite Z2Nat.id in Hq, Hc by lia.
  destruct (binary_round_aux_quotient (xorb (n <? 0) (20 <? 0))
              (n * 2 ^ (57 - d) / 20) (d - 57)
              (new_location 20 ((n * 2 ^ (57 - d)) mod 20)) Hq)
    as (m' & e' & -> & He' & Hv); [lia|].
  cbn [math_ceil option_map].
  destruct (Z.ltb_spec n 0); [lia|]. cbn [xorb].
  destruct (Z.leb_spec 0 e'); [lia|].
  do 2 f_equal. rewrite <- Hc, <- Hv. fold (ceil_div (Z.pos m') (2 ^ (- e'))).
  replace (2 ^ (57 - d)) with (2 ^ (- e') * 2 ^ (e' - (d - 57)))
    by (rewrite <- Z.pow_add_r by lia; f_equal; lia).
  symmetry. apply ceil_div_scale; apply Z.pow_pos_nonneg; lia.
Qed.

Lemma frame_pages (out : DataFrame) (pages : Z) :
  Z.of_nat (List.length out) < 2 ^ 53 ->
  total_pages (Z.of_nat (List.length out)) = Some pages ->
  1 <= pages /\
  Z.of_nat (List.length out) <= pages * 20 /\
  (pages - 1) * 20 < Z.max 1 (Z.of_nat (List.length out)).
Proof.
  intros Hlen H. rewrite total_pages_of_count in H by lia. injection H as <-.
  unfold ceil_div. split; [lia|]. split; Z.div_mod_to_equations; lia.
Qed.

Lemma paginate_length (df : DataFrame) (page : Z) :
  1 <= page ->
  Z.of_nat (List.length (paginate df page 20)) =
  Z.max 0 (Z.min 20 (Z.of_nat (List.length df) - (page - 1) * 20)).
Proof.
  intro Hp. unfold paginate. rewrite slice_from by lia.
  rewrite length_firstn, length_skipn. lia.
Qed.

(** X16. For a result of fewer than 2^53 rows, the pages 1 to [total_pages]
    laid end to end are the result itself.  Every page before the last holds
    20 rows, the last page of a result with rows is not empty, and every
    page beyond the last is empty. *)
Theorem pages_partition_the_result (out : DataFrame) (pages : Z) :
  Z.of_nat (List.length out) < 2 ^ 53 ->
  total_pages (Z.of_nat (List.length out)) = Some pages ->
  1 <= pages /\
  List.concat (map (fun p => paginate out (Z.of_nat p) (Z.to_nat ROWS_PER_PAGE))
                 (seq 1 (Z.to_nat pages))) = out /\
  (forall page, 1 <= page < pages ->
     List.length (paginate out page (Z.to_nat ROWS_PER_PAGE)) = 20%nat) /\
  (out <> [] -> paginate out pages (Z.to_nat ROWS_PER_PAGE) <> []) /\
  (forall page, pages < page -> paginate out page (Z.to_nat ROWS_PER_PAGE) = []).
Proof.
  intros Hlen H. destruct (frame_pages out pages Hlen H) as (H1 & Hcover & Hlast).
  change (Z.to_nat ROWS_PER_PAGE) with 20%nat.
  split; [exact H1|]. split; [apply pages_cover; lia|]. split; [|split].
  - intros page Hp. apply Nat2Z.inj. rewrite paginate_length by lia. lia.
  - intros Hne E.
    apply (f_equal (fun l => Z.of_nat (List.length l))) in E.
    rewrite paginate_length in E by lia. simpl in E.
    destruct out; [congruence | simpl List.length in *; lia].
  - intros page Hp. apply length_zero_iff_nil, Nat2Z.inj.
    rewrite paginate_length by lia. lia.
Qed.

Lemma pages_partition_the_result_witness :
  1 <= 3 /\
  List.concat (map (fun p => paginate catalogue (Z.of_nat p) (Z.to_nat ROWS_PER_PAGE))
                 (seq 1 (Z.to_nat 3))) = catalogue /\
  (forall page, 1 <= page < 3 ->
     List.length (paginate catalogue page (Z.to_nat ROWS_PER_PAGE)) = 20%nat) /\
  (catalogue <> [] -> paginate catalogue 3 (Z.to_nat ROWS_PER_PAGE) <> []) /\
  (forall page, 3 < page -> paginate catalogue page (Z.to_nat ROWS_PER_PAGE) = []).
Proof.
  apply (pages_partition_the_result catalogue 3); reflexivity.
Defined.

Lemma page_shown (out : DataFrame) (pages page : Z) :
  Z.of_nat (List.length out) < 2 ^ 53 ->
  total_pages (Z.of_nat (List.length out)) = Some pages ->
  let shown := paginate out page (Z.to_nat ROWS_PER_PAGE) in
  1 <= pages /\
  (List.length shown <= 20)%nat /\
  (pages < page -> shown = []) /\
  (1 <= page <= pages -> shown = [] -> pages = 1 /\ out = []) /\
  (1 <= page < pages -> List.length shown = 20%nat).
Proof.
  intros Hlen H shown. destruct (frame_pages out pages Hlen H) as (H1 & Hcover & Hlast).
  subst shown. change (Z.to_nat ROWS_PER_PAGE) with 20%nat.
  split; [exact H1|]. split; [apply slice_length|]. split; [|split].
  - intros Hp. apply length_zero_iff_nil, Nat2Z.inj.
    rewrite paginate_length by lia. lia.
  - intros Hp E.
    apply (f_equal (fun l => Z.of_nat (List.length l))) in E.
    rewrite paginate_length in E by lia. simpl in E.
    destruct out as [|r out]; [|simpl List.length in *; lia].
    split; [|reflexivity]. simpl in Hlast. lia.
  - intros Hp. apply Nat2Z.inj. rewrite paginate_length by lia. lia.
Qed.

(** X17. On a snapshot of fewer than 2^53 rows, the page that either view
    shows has at most 20 cards and a total of at least 1.  A page number
    beyond the total shows no cards; a page number within the total shows no
    cards only when the result is empty and the total is 1; a page before
    the last shows 20 cards. *)
Theorem view_page_display (sort : sorter) (full_df : DataFrame) (pressed : option button)
    (w w' : World) (pg : Page) :
  sort_contract sort ->
  Z.of_nat (List.length full_df) < 2 ^ 53 ->
  (exists c, popular_view sort full_df c pressed w = (Some pg, w')) \/
  (exists c, upcoming_view sort full_df c pressed w = (Some pg, w')) ->
  1 <= shown_total pg /\
  (List.length (cards pg) <= 20)%nat /\
  (shown_total pg < shown_page pg -> cards pg = []) /\
  (1 <= shown_page pg <= shown_total pg -> cards pg = [] -> shown_total pg = 1) /\
  (1 <= shown_page pg < shown_total pg -> List.length (cards pg) = 20%nat).
Proof.
  intros Hs Hlen Hview.
  assert (Hout : exists out pages page,
            Z.of_nat (List.length out) <= get_games_number full_df /\
            total_pages (Z.of_nat (List.length out)) = Some pages /\
            pg = {| shown_page := page; shown_total := pages;
                    cards := paginate out page (Z.to_nat ROWS_PER_PAGE) |}).
  { destruct Hview as [[c Hview] | [c Hview]].
    - destruct (popular_view_cases sort full_df c pressed w)
        as [Hnone | (out & pages & Hout & Hp & Hsome)]; [congruence|].
      cbv zeta in Hsome. rewrite Hsome in Hview. injection Hview as <- _.
      apply filter_data_inv in Hout as (re & key & _ & _ & ->).
      do 3 eexists. split; [apply sorted_filter_facts, Hs|]. split; [exact Hp|].
      reflexivity.
    - destruct (upcoming_view_cases sort full_df c pressed w)
        as [Hnone | (out & pages & Hout & Hp & Hsome)]; [congruence|].
      cbv zeta in Hsome. rewrite Hsome in Hview. injection Hview as <- _.
      apply filter_upcoming_data_inv in Hout as (re & _ & ->).
      do 3 eexists. split; [apply sorted_filter_facts, Hs|]. split; [exact Hp|].
      reflexivity. }
  destruct Hout as (out & pages & page & Hle & Hp & ->). cbn [shown_page shown_total cards].
  unfold get_games_number, get_column in Hle. rewrite length_map in Hle.
  destruct (page_shown out pages page) as (H1 & H2 & H3 & H4 & H5); [lia | exact Hp |].
  repeat split; auto. intros Hr E. apply H4; assumption.
Qed.

Lemma view_page_display_witness :
  exists pg w',
    popular_view insertion_sort catalogue initial_popular None on_page_3 = (Some pg, w') /\
    (1 <= shown_total pg /\
     (List.length (cards pg) <= 20)%nat /\
     (shown_total pg < shown_page pg -> cards pg = []) /\
     (1 <= shown_page pg <= shown_total pg -> cards pg = [] -> shown_total pg = 1) /\
     (1 <= shown_page pg < shown_total pg -> List.length (cards pg) = 20%nat)).
Proof.
  do 2 eexists. split; [vm_compute; reflexivity|].
  eapply (view_page_display insertion_sort catalogue None on_page_3 _ _
           insertion_sort_contract); [reflexivity|].
  left. exists initial_popular. vm_compute. reflexivity.
Defined.

(* ------------------------------------------------------------------ *)
(** * A whole run of the script *)

Section AppFacts.

Variable format_float : Q -> string -> string.
Variable date_strftime : Z -> string -> string.
Variable datetime_strftime : Z -> string -> string.
Variable sort : sorter.

(** Every game on a page of an output of [filter_data] has a rating, so
    its card can be drawn. *)
Lemma rated_page_renders df search rating_range min_count sort_by order w out page :
  sort_contract sort ->
  fst (filter_data sort df search rating_range min_count sort_by order w) = Some out ->
  exists shown,
    collect (map (fun r => popular_card format_float date_strftime datetime_strftime
                             (row_of r))
               (paginate out page (Z.to_nat ROWS_PER_PAGE))) = Some shown.
Proof.
  intros Hs Hout. apply filter_data_inv in Hout as (re & key & _ & _ & ->).
  apply collect_total. intros r Hr. apply in_paginate in Hr.
  apply (in_sort sort Hs), in_df_filter in Hr as [_ Hk].
  apply popular_mask_keeps in Hk as (_ & (q & Hq & _) & _).
  rewrite popular_card_of_row, Hq. discriminate.
Qed.

Lemma popular_screen_cases full_df c pressed w :
  sort_contract sort ->
  match popular_view sort full_df c pressed w with
  | (Some pg, w') => exists grid, (popular_screen format_float date_strftime datetime_strftime sort) full_df c pressed w = (Some (pg, grid), w')
  | (None, w') => (popular_screen format_float date_strftime datetime_strftime sort) full_df c pressed w = (None, w')
  end.
Proof.
  intro Hs. unfold popular_screen, bind.
  destruct (popular_view_cases sort full_df c pressed w)
    as [-> | (out & pages & Hout & _ & ->)]; [reflexivity|].
  cbv zeta. cbn [cards].
  destruct (rated_page_renders _ _ _ _ _ _ _ _
              (page_after (page_num (session_state w)) (st_button pressed prev_popular)
                 (st_button pressed next_popular) pages) Hs Hout) as [shown Hshown].
  rewrite (render_grid_explicit _ _ shown Hshown). eexists. reflexivity.
Qed.

Lemma upcoming_screen_world full_df c pressed w :
  snd ((upcoming_screen date_strftime datetime_strftime sort) full_df c pressed w) = snd (upcoming_view sort full_df c pressed w).
Proof.
  unfold upcoming_screen, bind.
  destruct (upcoming_view sort full_df c pressed w) as [[pg|] w']; [|reflexivity].
  destruct (render_grid _ _); reflexivity.
Qed.

Lemma popular_screen_world full_df c pressed w :
  snd ((popular_screen format_float date_strftime datetime_strftime sort) full_df c pressed w) = snd (popular_view sort full_df c pressed w).
Proof.
  unfold popular_screen, bind.
  destruct (popular_view sort full_df c pressed w) as [[pg|] w']; [|reflexivity].
  destruct (render_grid _ _); reflexivity.
Qed.

Lemma app_world full_df tab_choice popular upcoming pressed w :
  snd ((app format_float date_strftime datetime_strftime sort) full_df tab_choice popular upcoming pressed w) = w \/
  snd ((app format_float date_strftime datetime_strftime sort) full_df tab_choice popular upcoming pressed w) =
  match tab_choice with
  | popular_games => snd (popular_view sort full_df popular pressed w)
  | upcoming_releases => snd (upcoming_view sort full_df upcoming pressed w)
  end.
Proof.
  unfold app, bind, of_option, ret, raise.
  destruct (format_last_update datetime_strftime full_df); [|left; reflexivity].
  destruct tab_choice.
  - rewrite get_max_hypes_runs.
    destruct (column_max _); [|left; reflexivity].
    right. rewrite <- upcoming_screen_world.
    destruct ((upcoming_screen date_strftime datetime_strftime sort) full_df upcoming pressed w) as [[scr|] w']; reflexivity.
  - right. rewrite <- popular_screen_world.
    destruct ((popular_screen format_float date_strftime datetime_strftime sort) full_df popular pressed w) as [[scr|] w']; reflexivity.
Qed.

Lemma popular_view_frame full_df c pressed w :
  today (snd (popular_view sort full_df c pressed w)) = today w /\
  upcoming_page_num (session_state (snd (popular_view sort full_df c pressed w)))
    = upcoming_page_num (session_state w).
Proof.
  destruct (popular_view_world sort full_df c pressed w) as [-> | [pages ->]]; [auto|].
  destruct (pagination_controls_spec key_page_num (st_button pressed prev_popular)
              (st_button pressed next_popular) pages w) as (_ & _ & Hother & Hday).
  split; [exact Hday|]. apply (Hother key_upcoming_page_num). discriminate.
Qed.

Lemma upcoming_view_frame full_df c pressed w :
  today (snd (upcoming_view sort full_df c pressed w)) = today w /\
  page_num (session_state (snd (upcoming_view sort full_df c pressed w)))
    = page_num (session_state w).
Proof.
  destruct (upcoming_view_world sort full_df c pressed w) as [-> | [pages ->]]; [auto|].
  destruct (pagination_controls_spec key_upcoming_page_num
              (st_button pressed prev_upcoming)
              (st_button pressed next_upcoming) pages w) as (_ & _ & Hother & Hday).
  split; [exact Hday|]. apply (Hother key_page_num). discriminate.
Qed.

(** X18. A run of the script on one tab never changes the page number of
    the other tab, whether the run completes or stops with an error. *)
Theorem a_run_touches_one_page_number (full_df : DataFrame) (tab_choice : tab)
    (popular : PopularControls) (upcoming : UpcomingControls)
    (pressed : option button) (w : World) :
  let after := snd ((app format_float date_strftime datetime_strftime sort) full_df tab_choice popular upcoming pressed w) in
  today after = today w /\
  match tab_choice with
  | popular_games =>
      upcoming_page_num (session_state after) = upcoming_page_num (session_state w)
  | upcoming_releases =>
      page_num (session_state after) = page_num (session_state w)
  end.
Proof.
  cbv zeta.
  destruct (app_world full_df tab_choice popular upcoming pressed w) as [-> | ->].
  - destruct tab_choice; auto.
  - destruct tab_choice; [apply upcoming_view_frame | apply popular_view_frame].
Qed.

(** X19. On a snapshot without rows the script stops in
    [format_last_update], on either tab, before it touches the session.  On
    the upcoming tab it also stops, at [int(max_hypes)], when no game of the
    snapshot is released after today. *)
Theorem app_stops_early (full_df : DataFrame) (popular : PopularControls)
    (upcoming : UpcomingControls) (pressed : option button) (w : World) :
  (full_df = [] ->
   forall tab_choice, (app format_float date_strftime datetime_strftime sort) full_df tab_choice popular upcoming pressed w = (None, w)) /\
  ((forall r, In r full_df -> ~ released_after r (today w)) ->
   (app format_float date_strftime datetime_strftime sort) full_df upcoming_releases popular upcoming pressed w = (None, w)).
Proof.
  split.
  - intros -> tab_choice. reflexivity.
  - intro Hnone. unfold app, bind, of_option, ret, raise.
    destruct (format_last_update datetime_strftime full_df); [|reflexivity].
    rewrite get_max_hypes_runs.
    replace (column_max _) with (@None Z); [reflexivity|].
    symmetry. apply column_max_none.
    destruct (get_column hypes _) as [|m rest] eqn:E; [reflexivity|].
    assert (Hm : In m (get_column hypes (df_filter (upcoming_only (today w)) full_df)))
      by (rewrite E; left; reflexivity).
    apply in_upcoming_hypes in Hm as (r & Hin & Hrel & _).
    destruct (Hnone r Hin Hrel).
Qed.

(** X20. On a snapshot with rows, whenever the popular view yields a page the
    whole run on the popular tab completes: it shows the header figures of
    the snapshot, that page, and the grid of its cards, and leaves the
    session as the view left it. *)
Theorem popular_tab_draws_the_page (full_df : DataFrame) (popular : PopularControls)
    (upcoming : UpcomingControls) (pressed : option button) (w w' : World) (pg : Page) :
  sort_contract sort ->
  full_df <> [] ->
  popular_view sort full_df popular pressed w = (Some pg, w') ->
  exists shown grid,
    (app format_float date_strftime datetime_strftime sort) full_df popular_games popular upcoming pressed w =
    (Some ({| last_update := shown;
              total_games_count := get_games_number full_df;
              ratings_count := get_ratings_count full_df |},
           PopularBody pg grid), w') /\
    format_last_update datetime_strftime full_df = Some shown /\
    render_grid (popular_card format_float date_strftime datetime_strftime) (cards pg)
      = Some grid.
Proof.
  intros Hs Hne Hview.
  pose proof (popular_screen_cases full_df popular pressed w Hs) as Hscreen.
  rewrite Hview in Hscreen. destruct Hscreen as [grid Hscreen].
  destruct (format_last_update datetime_strftime full_df) as [shown|] eqn:E.
  - exists shown, grid. split; [|split; [reflexivity|]].
    + unfold app, bind, of_option, ret, raise. rewrite E, Hscreen. reflexivity.
    + unfold popular_screen, bind, of_option, ret, raise in Hscreen.
      rewrite Hview in Hscreen.
      destruct (render_grid _ (cards pg)) as [g|]; [|discriminate].
      congruence.
  - unfold format_last_update in E.
    destruct (column_max _) eqn:Em; [discriminate|].
    apply column_max_none in Em. destruct full_df; [congruence | discriminate].
Qed.

End AppFacts.

Lemma popular_tab_draws_the_page_witness :
  exists pg w',
    popular_view insertion_sort [halo; hades; doom] initial_popular None first_visit
      = (Some pg, w') /\
    exists shown grid,
      app show_nothing show_nothing show_nothing insertion_sort
        [halo; hades; doom] popular_games initial_popular initial_upcoming None
        first_visit =
      (Some ({| last_update := shown;
                total_games_count := get_games_number [halo; hades; doom];
                ratings_count := get_ratings_count [halo; hades; doom] |},
             PopularBody pg grid), w') /\
      format_last_update show_nothing [halo; hades; doom] = Some shown /\
      render_grid (popular_card show_nothing show_nothing show_nothing) (cards pg)
        = Some grid.
Proof.
  do 2 eexists. split; [vm_compute; reflexivity|].
  apply (popular_tab_draws_the_page show_nothing show_nothing show_nothing
           insertion_sort [halo; hades; doom] initial_popular initial_upcoming None
           first_visit _ _ insertion_sort_contract); [discriminate | reflexivity].
Defined.

(* ------------------------------------------------------------------ *)
(** * The order of the cards *)

Lemma pairs_skipn {A} (R : A -> A -> Prop) (n : nat) : forall l : list A,
  ForallOrdPairs R l -> ForallOrdPairs R (skipn n l).
Proof.
  induction n as [|n IH]; intros l H; [exact H|].
  destruct H as [|a l Ha H]; [constructor | apply IH, H].
Qed.

Lemma pairs_firstn {A} (R : A -> A -> Prop) (n : nat) : forall l : list A,
  ForallOrdPairs R l -> ForallOrdPairs R (firstn n l).
Proof.
  induction n as [|n IH]; intros l H; [constructor|].
  destruct H as [|a l Ha H]; [constructor|]. simpl. constructor; [|apply IH, H].
  rewrite Forall_forall in *. intros x Hx. apply Ha. eapply in_firstn, Hx.
Qed.

Lemma pairs_paginate (R : GameRecord -> GameRecord -> Prop) (df : DataFrame)
    (page : Z) (rows : nat) :
  ForallOrdPairs R df -> ForallOrdPairs R (paginate df page rows).
Proof.
  intro H. unfold paginate, slice. apply pairs_firstn, pairs_skipn, H.
Qed.

(** X21. The cards on a page are in the order chosen in the sidebar.  In the
    popular view they run by the chosen column, descending when the radio
    reads "Descending" and ascending otherwise.  In the upcoming view they
    run by release date when "Release Date" is chosen and by hype count
    otherwise, descending exactly when the radio reads "Descending". *)
Theorem view_cards_in_order (sort : sorter) (full_df : DataFrame)
    (pressed : option button) (w w' : World) (pg : Page) :
  sort_contract sort ->
  (forall c, popular_view sort full_df c pressed w = (Some pg, w') ->
     exists key, column_named (sort_by_popular c) = Some key /\
       ForallOrdPairs (in_order key (order_popular c =? "Descending")%string)
         (cards pg)) /\
  (forall c, upcoming_view sort full_df c pressed w = (Some pg, w') ->
     ForallOrdPairs
       (in_order (if (sort_by_upcoming c =? "Release Date")%string
                  then col_first_release_date else col_hypes)
          (order_upcoming c =? "Descending")%string)
       (cards pg)).
Proof.
  intro Hs. split; intros c Hview.
  - destruct (popular_view_cases sort full_df c pressed w)
      as [Hnone | (out & pages & Hout & _ & Hsome)]; [congruence|].
    cbv zeta in Hsome. rewrite Hsome in Hview. injection Hview as <- _.
    apply filter_data_inv in Hout as (re & key & _ & Hkey & ->).
    exists key. split; [exact Hkey|]. cbn [cards]. apply pairs_paginate.
    destruct (order_popular c =? "Descending")%string; apply (sort_ordered _ Hs).
  - destruct (upcoming_view_cases sort full_df c pressed w)
      as [Hnone | (out & pages & Hout & _ & Hsome)]; [congruence|].
    cbv zeta in Hsome. rewrite Hsome in Hview. injection Hview as <- _.
    apply filter_upcoming_data_inv in Hout as (re & _ & ->).
    cbn [cards]. apply pairs_paginate, (sort_ordered _ Hs).
Qed.

Lemma view_cards_in_order_witness :
  (exists pg w',
     popular_view insertion_sort [halo; hades; doom; quake] initial_popular None
       first_visit = (Some pg, w') /\
     exists key, column_named (sort_by_popular initial_popular) = Some key /\
       ForallOrdPairs
         (in_order key (order_popular initial_popular =? "Descending")%string)
         (cards pg)) /\
  (exists pg w',
     upcoming_view insertion_sort [halo; hades; doom; quake] initial_upcoming None
       launch_day = (Some pg, w') /\
     ForallOrdPairs
       (in_order (if (sort_by_upcoming initial_upcoming =? "Release Date")%string
                  then col_first_release_date else col_hypes)
          (order_upcoming initial_upcoming =? "Descending")%string)
       (cards pg)).
Proof.
  split; do 2 eexists; (split; [vm_compute; reflexivity|]).
  - eapply (proj1 (view_cards_in_order insertion_sort [halo; hades; doom; quake] None
                    first_visit _ _ insertion_sort_contract) initial_popular).
    vm_compute. reflexivity.
  - eapply (proj2 (view_cards_in_order insertion_sort [halo; hades; doom; quake] None
                    launch_day _ _ insertion_sort_contract) initial_upcoming).
    vm_compute. reflexivity.
Defined.
